(** * ckeditor5-heading: the heading command, the heading conversions and
      the console of the title snippet

    A shallow embedding of
    - [FormatEngine.init] (schema items and the data converters),
    - [HeadingCommand] ([_doExecute], [refreshValue], [_checkEnabled],
      [checkCanBecomeHeading]),
    - [Console.update] of [docs/_snippets/features/title.js],
    with the editor framework they call (document, selection, schema, batches,
    the paragraph command, timers) kept as small as the commands need it. *)

From stdpp Require Import base list strings.
From Stdlib Require Import ZArith Lia.

Local Open Scope string_scope.
Local Open Scope list_scope.

(** ** The model document

    Blocks are the children of the root, in document order; a block is
    referred to by its place in that sequence, which stands for the identity
    of the JS object (renaming an element keeps it in place). *)

Record Element := mkElement {
  name : string;      (* element.name *)
  maxOffset : nat     (* element.maxOffset: the size of its content *)
}.

Inductive Node :=
  | Root
  | Block (i : nat).

Record Position := mkPosition {
  parent : Node;
  offset : nat
}.

Record Range := mkRange {
  start : Position;
  end_ : Position
}.

Record Selection := mkSelection {
  _ranges : list Range
}.

Definition Batch := nat.

Inductive Operation :=
  | RenameOperation (block : nat) (oldName newName : string).

(** [schema.check( { name, inside } )]: the framework's permission oracle. *)
Definition Schema := string -> Position -> bool.

Record Document := mkDocument {
  blocks : list Element;
  selection : Selection;
  schema : Schema;
  history : list (Batch * Operation);  (* oldest first *)
  batches : nat                        (* batches created so far *)
}.

(** The [options] object of a command's [execute]. *)
Record Options := mkOptions {
  opt_selection : option Selection;
  opt_batch : option Batch
}.

Definition no_options : Options := mkOptions None None.

Record Editor := mkEditor {
  document : Document;
  executed : list (string * Options);  (* calls of editor.execute, oldest first *)
  paragraphEnabled : bool              (* isEnabled of the paragraph command *)
}.

(** ** Effects: a state monad over the editor *)

Definition M (A : Type) : Type := Editor -> A * Editor.

Definition ret {A} (a : A) : M A := fun ed => (a, ed).

Definition bind {A B} (m : M A) (k : A -> M B) : M B :=
  fun ed => let (a, ed') := m ed in k a ed'.

Notation "x <- m ;; k" := (bind m (fun x => k))
  (at level 100, m at next level, right associativity).
Notation "m ;;; k" := (bind m (fun _ => k))
  (at level 100, right associativity).

Definition gets {A} (f : Editor -> A) : M A := fun ed => (f ed, ed).

Definition modify_document (f : Document -> Document) : M unit :=
  fun ed => (tt, mkEditor (f (document ed)) (executed ed) (paragraphEnabled ed)).

(** [for ( const x of l ) body(x)] *)
Fixpoint forEach {A} (l : list A) (body : A -> M unit) : M unit :=
  match l with
  | [] => ret tt
  | x :: l' => body x ;;; forEach l' body
  end.

Definition exec {A} (m : M A) (ed : Editor) : Editor := snd (m ed).

(** ** The framework, as far as the command uses it

    The document, its selection, the schema, the batches and the paragraph
    command belong to the editor framework and to other packages; they are
    modelled here from what the command calls and from the words of the spec. *)

(** [Position.createBefore( block )]: in the block's parent, at its index. *)
Definition createBefore (block : nat) : Position := mkPosition Root block.

(** [Range.createIn( block )]: from offset 0 to [maxOffset], both in [block]. *)
Definition createIn (doc : Document) (block : nat) : Range :=
  let size := from_option maxOffset 0 (blocks doc !! block) in
  mkRange (mkPosition (Block block) 0) (mkPosition (Block block) size).

(** [selection.addRange( range )] *)
Definition addRange (sel : Selection) (r : Range) : Selection :=
  mkSelection (_ranges sel ++ [r]).

(** [new Selection()] *)
Definition new_Selection : Selection := mkSelection [].

(** The first block a range that starts at [p] touches: the block [p] lies
    in, or the one after [p] when [p] lies between blocks. *)
Definition firstBlock (p : Position) : nat :=
  match parent p with
  | Block i => i
  | Root => offset p
  end.

(** The block after the last one a range that ends at [p] touches. *)
Definition pastLastBlock (p : Position) : nat :=
  match parent p with
  | Block i => S i
  | Root => offset p
  end.

(** The blocks a range touches, in document order. *)
Definition blocksOfRange (r : Range) : list nat :=
  seq (firstBlock (start r)) (pastLastBlock (end_ r) - firstBlock (start r)).

(** The blocks of [l] not in [visited], each at its first place. *)
Fixpoint unvisited (visited l : list nat) : list nat :=
  match l with
  | [] => []
  | x :: l' =>
      if decide (x ∈ visited) then unvisited visited l'
      else x :: unvisited (x :: visited) l'
  end.

(** Modelled from the spec: the selection is "an ordered set of currently
    selected blocks"; [getSelectedBlocks] of the framework is not part of
    this repository. The blocks the ranges touch are yielded range by range,
    in document order within a range, each block once. *)
Definition getSelectedBlocks (doc : Document) (sel : Selection) : list nat :=
  unvisited []
    (filter (fun i => i < length (blocks doc))
            (concat (map blocksOfRange (_ranges sel)))).

(** [first( iterable )] of ckeditor5-utils: the first item, or [null]. *)
Definition first {A} (l : list A) : option A :=
  match l with
  | [] => None
  | x :: _ => Some x
  end.

(** [element.is( name )] *)
Definition is_ (doc : Document) (block : nat) (n : string) : bool :=
  match blocks doc !! block with
  | Some e => String.eqb (name e) n
  | None => false
  end.

(** [document.batch()]: a fresh batch. *)
Definition document_batch : M Batch :=
  fun ed =>
    let doc := document ed in
    (batches doc,
     mkEditor (mkDocument (blocks doc) (selection doc) (schema doc)
                          (history doc) (S (batches doc)))
              (executed ed) (paragraphEnabled ed)).

Definition set_name (n : string) (e : Element) : Element :=
  mkElement n (maxOffset e).

(** Modelled from the spec: "Batch: a host-managed group of document
    mutations"; [batch.rename( block, newName )] changes the name of the block
    in place and records the operation in the batch. *)
Definition batch_rename (batch : Batch) (block : nat) (newName : string) : M unit :=
  modify_document (fun doc =>
    match blocks doc !! block with
    | Some e =>
        mkDocument (<[block := set_name newName e]> (blocks doc))
                   (selection doc) (schema doc)
                   (history doc ++ [(batch, RenameOperation block (name e) newName)])
                   (batches doc)
    | None => doc
    end).

(** [options.batch || document.batch()] *)
Definition batch_of (options : Options) : M Batch :=
  match opt_batch options with
  | Some b => ret b
  | None => document_batch
  end.

(** Modelled from the spec: the paragraph command, which belongs to another
    package: it turns the selected blocks into the "default/plain block
    type", ['paragraph'], working on [options.selection] when given and in
    [options.batch] when given. *)
Definition paragraph_doExecute (options : Options) : M unit :=
  batch <- batch_of options ;;
  bs <- gets (fun ed =>
          getSelectedBlocks (document ed)
            (default (selection (document ed)) (opt_selection options))) ;;
  forEach bs (fun block =>
    p <- gets (fun ed => is_ (document ed) block "paragraph") ;;
    if negb p then batch_rename batch block "paragraph" else ret tt).

(** Modelled from the spec: a disabled command is "non-executable";
    [editor.execute( 'paragraph', options )] hands the options to the
    paragraph command, which runs only when its [isEnabled] is true and does
    nothing otherwise. The call is recorded either way. *)
Definition editor_execute_paragraph (options : Options) : M unit :=
  (fun ed => (tt, mkEditor (document ed) (executed ed ++ [("paragraph", options)])
                           (paragraphEnabled ed))) ;;;
  enabled <- gets paragraphEnabled ;;
  if enabled then paragraph_doExecute options else ret tt.

(** ** HeadingCommand *)

Record HeadingCommand := mkHeadingCommand {
  modelElement : string;
  value : bool;
  isEnabled : bool
}.

(** [checkCanBecomeHeading( block, heading, schema )] *)
Definition checkCanBecomeHeading (block : nat) (heading : string) (sch : Schema) : bool :=
  sch heading (createBefore block).

(** [editor.document.selection.getSelectedBlocks()] *)
Definition selectedBlocks (ed : Editor) : list nat :=
  getSelectedBlocks (document ed) (selection (document ed)).

(** [refreshValue()] *)
Definition refreshValue (this : HeadingCommand) (ed : Editor) : HeadingCommand :=
  let block := first (selectedBlocks ed) in
  mkHeadingCommand (modelElement this)
    (match block with
     | Some b => is_ (document ed) b (modelElement this)
     | None => false
     end)
    (isEnabled this).

(** [_checkEnabled()] *)
Definition _checkEnabled (this : HeadingCommand) (ed : Editor) : bool :=
  let doc := document ed in
  let block := first (selectedBlocks ed) in
  match block with
  | Some b => checkCanBecomeHeading b (modelElement this) (schema doc)
  | None => false
  end.

(** Modelled from the spec: the command exposes "an enablement predicate" and
    the host sees to its "re-evaluation on every document change";
    [refreshState()] of the base command sets [isEnabled] to what
    [_checkEnabled] answers. *)
Definition refreshState (this : HeadingCommand) (ed : Editor) : HeadingCommand :=
  mkHeadingCommand (modelElement this) (value this) (_checkEnabled this ed).

(** The listener the constructor registers on ['changesDone']. *)
Definition changesDone (this : HeadingCommand) (ed : Editor) : HeadingCommand :=
  refreshState (refreshValue this ed) ed.

(** [constructor( editor, modelElement )]: [this.set( 'value', false )]; a
    command starts enabled. *)
Definition new_HeadingCommand (modelElement : string) : HeadingCommand :=
  mkHeadingCommand modelElement false true.

(** The body of the [for] loop of [_doExecute], for one [block]. *)
Definition _doExecute_block (this : HeadingCommand) (shouldRemove : bool)
    (batch : Batch) (block : nat) : M unit :=
  isTarget <- gets (fun ed => is_ (document ed) block (modelElement this)) ;;
  if shouldRemove then
    if isTarget then
      sel <- gets (fun ed => addRange new_Selection (createIn (document ed) block)) ;;
      editor_execute_paragraph (mkOptions (Some sel) (Some batch))
    else ret tt
  else if negb isTarget then
    batch_rename batch block (modelElement this)
  else ret tt.

(** The blocks [_doExecute] works on: the selected ones that pass the check. *)
Definition eligibleBlocks (this : HeadingCommand) (doc : Document) : list nat :=
  filter (fun block =>
            checkCanBecomeHeading block (modelElement this) (schema doc) = true)
         (getSelectedBlocks doc (selection doc)).

(** The callback [_doExecute] hands to [document.enqueueChanges]. *)
Definition _doExecute_changes (this : HeadingCommand) (shouldRemove : bool)
    (options : Options) : M unit :=
  batch <- batch_of options ;;
  bs <- gets (fun ed => eligibleBlocks this (document ed)) ;;
  forEach bs (_doExecute_block this shouldRemove batch).

(** Modelled from the spec: a command "reports itself disabled
    (non-executable) whenever no block is selected or the would-be target type
    is not schema-permitted at the current position"; for the paragraph
    command the target type is ['paragraph']. *)
Definition paragraph_checkEnabled (ed : Editor) : bool :=
  match first (selectedBlocks ed) with
  | Some b => schema (document ed) "paragraph" (createBefore b)
  | None => false
  end.

(** Modelled from the spec: the host sees to the "re-evaluation on every
    document change"; on ['changesDone'] the paragraph command sets its
    [isEnabled] anew. *)
Definition paragraph_changesDone (ed : Editor) : Editor :=
  mkEditor (document ed) (executed ed) (paragraph_checkEnabled ed).

(** Modelled from the spec: the flag is "recomputed after every document
    change"; [document.enqueueChanges( callback )] runs the callback, then
    fires ['changesDone'], and the listeners of the commands run. *)
Definition enqueueChanges (this : HeadingCommand) (callback : M unit) (ed : Editor)
    : HeadingCommand * Editor :=
  let ed' := paragraph_changesDone (exec callback ed) in
  (changesDone this ed', ed').

(** [_doExecute( options = {} )] *)
Definition _doExecute (this : HeadingCommand) (options : Options) (ed : Editor)
    : HeadingCommand * Editor :=
  let shouldRemove := value this in
  enqueueChanges this (_doExecute_changes this shouldRemove options) ed.

(** ** What one execution does, block by block

    The three functions below describe the outcome of the loop body from the
    state the block is met in; [_doExecute_block_spec] proves that the body
    does exactly that. *)

(** The element a visited block ends as; [enabled] is the [isEnabled] of the
    paragraph command. *)
Definition new_element (T : string) (shouldRemove enabled : bool) (e : Element)
    : Element :=
  if shouldRemove then
    if String.eqb (name e) T && enabled then set_name "paragraph" e else e
  else set_name T e.

(** The operations the visit adds to the history. *)
Definition ops_of (T : string) (shouldRemove enabled : bool) (batch : Batch)
    (doc : Document) (block : nat) : list (Batch * Operation) :=
  match blocks doc !! block with
  | Some e =>
      if shouldRemove then
        if String.eqb (name e) T && enabled && negb (String.eqb (name e) "paragraph")
        then [(batch, RenameOperation block (name e) "paragraph")] else []
      else
        if String.eqb (name e) T then []
        else [(batch, RenameOperation block (name e) T)]
  | None => []
  end.

(** The calls of [editor.execute] the visit makes. *)
Definition calls_of (T : string) (shouldRemove : bool) (batch : Batch)
    (doc : Document) (block : nat) : list (string * Options) :=
  if shouldRemove && is_ doc block T
  then [("paragraph", mkOptions (Some (mkSelection [createIn doc block])) (Some batch))]
  else [].

Definition visit (T : string) (shouldRemove : bool) (batch : Batch)
    (block : nat) (ed : Editor) : Editor :=
  let doc := document ed in
  let enabled := paragraphEnabled ed in
  mkEditor
    (mkDocument (alter (new_element T shouldRemove enabled) block (blocks doc))
                (selection doc) (schema doc)
                (history doc ++ ops_of T shouldRemove enabled batch doc block)
                (batches doc))
    (executed ed ++ calls_of T shouldRemove batch doc block)
    enabled.

Fixpoint visits (T : string) (shouldRemove : bool) (batch : Batch)
    (l : list nat) (ed : Editor) : Editor :=
  match l with
  | [] => ed
  | x :: l' => visits T shouldRemove batch l' (visit T shouldRemove batch x ed)
  end.

(** The batch one execution works in: [options.batch || document.batch()]. *)
Definition batch_used (options : Options) (ed : Editor) : Batch :=
  match opt_batch options with
  | Some b => b
  | None => batches (document ed)
  end.

(** The block an operation is on. *)
Definition op_block (op : Operation) : nat :=
  match op with RenameOperation block _ _ => block end.

(** [block.name], the empty string standing for a block that is not there. *)
Definition nameOf (doc : Document) (block : nat) : string :=
  from_option name "" (blocks doc !! block).

(** * FormatEngine: the schema items and the data converters *)

Module FormatEngine.

(** A converter built by [.fromElement( a ).toElement( b )]. *)
Record Converter := mkConverter {
  fromElement : string;
  toElement : string
}.

(** What [init] reaches of the editor: the items of [document.schema] and the
    converters of the two dispatchers of [editor.data]. *)
Record Editor := mkEditor {
  schemaItems : list (string * string);   (* item, the item it inherits from *)
  modelToView : list Converter;           (* in order of registration *)
  viewToModel : list Converter
}.

(** How a call that can raise ends: it ran to its end, or the framework
    raised its error; either way with the editor as the call left it. *)
Inductive Outcome :=
  | Done (ed : Editor)
  | Raised (ed : Editor).

(** [o] and then, unless it raised, [k]. *)
Definition andThen (o : Outcome) (k : Editor -> Outcome) : Outcome :=
  match o with
  | Done ed => k ed
  | Raised ed => Raised ed
  end.

(** [schema.hasItem( itemName )] *)
Definition hasItem (itemName : string) (ed : Editor) : bool :=
  existsb (fun item => String.eqb (fst item) itemName) (schemaItems ed).

(** Modelled from the spec: "registration either succeeds or the host
    framework raises its own configuration error";
    [schema.registerItem( itemName, base )] raises when the schema has an item
    of that name already and adds the item otherwise. The items every schema
    is made with, ['$block'] among them, are not listed. *)
Definition registerItem (itemName base : string) (ed : Editor) : Outcome :=
  if hasItem itemName ed then Raised ed
  else Done (mkEditor (schemaItems ed ++ [(itemName, base)])
                      (modelToView ed) (viewToModel ed)).

(** [BuildModelConverterFor( data.modelToView ).fromElement( a ).toElement( b )] *)
Definition BuildModelConverterFor (a b : string) (ed : Editor) : Editor :=
  mkEditor (schemaItems ed) (modelToView ed ++ [mkConverter a b]) (viewToModel ed).

(** [BuildViewConverterFor( data.viewToModel ).fromElement( a ).toElement( b )] *)
Definition BuildViewConverterFor (a b : string) (ed : Editor) : Editor :=
  mkEditor (schemaItems ed) (modelToView ed) (viewToModel ed ++ [mkConverter a b]).

(** [init()], statement by statement: an error raised by a registration ends
    it there. *)
Definition init (ed : Editor) : Outcome :=
  andThen (registerItem "heading1" "$block" ed) (fun ed =>
  andThen (registerItem "heading2" "$block" ed) (fun ed =>
  andThen (registerItem "heading3" "$block" ed) (fun ed =>
  let ed := BuildModelConverterFor "heading1" "h2" ed in
  let ed := BuildModelConverterFor "heading2" "h3" ed in
  let ed := BuildModelConverterFor "heading3" "h4" ed in
  let ed := BuildViewConverterFor "h2" "heading1" ed in
  let ed := BuildViewConverterFor "h3" "heading2" ed in
  let ed := BuildViewConverterFor "h4" "heading3" ed in
  Done ed))).

(** Modelled from the spec: "each mapping is a pure 1:1 rename table"; a
    dispatcher of the framework converts an element by the first converter
    registered for its name, and leaves an element with no converter alone. *)
Fixpoint convert (cs : list Converter) (n : string) : option string :=
  match cs with
  | [] => None
  | c :: cs' => if String.eqb (fromElement c) n then Some (toElement c)
                else convert cs' n
  end.

(** An editor before any feature is initialised. *)
Definition new_Editor : Editor := mkEditor [] [] [].

(** The three pairs [init] declares. *)
Definition declared : list (string * string) :=
  [("heading1", "h2"); ("heading2", "h3"); ("heading3", "h4")].

End FormatEngine.

(** * The console of the title snippet *)

Module Console.

(** The page element a console writes to: whether its class list holds
    ['updated'], and its text. *)
Record DomElement := mkDomElement {
  updated : bool;
  textContent : string
}.

Record Console := mkConsole {
  element : DomElement;
  consoleUpdates : Z;
  previousData : string
}.

(** [constructor( element )] *)
Definition new_Console (el : DomElement) : Console := mkConsole el 0 "".

(** The console in the browser: the clock, in milliseconds, and the timers
    the console has set and that have not fired yet, each by the time it is
    due, oldest first. *)
Record World := mkWorld {
  console : Console;
  clock : nat;
  timers : list nat
}.

Definition new_World (el : DomElement) : World := mkWorld (new_Console el) 0 [].

(** The delay given to [setTimeout]. *)
Definition delay : nat := 500.

(** [update( data )] *)
Definition update (data : string) (w : World) : World :=
  let c := console w in
  if String.eqb (previousData c) data then w
  else
    mkWorld
      (mkConsole
         (mkDomElement true (String.append "'" (String.append data "'")))
         (consoleUpdates c + 1)
         data)
      (clock w)
      (timers w ++ [clock w + delay]).

(** The function given to [setTimeout]. *)
Definition onTimeout (c : Console) : Console :=
  let n := (consoleUpdates c - 1)%Z in
  mkConsole
    (if (n =? 0)%Z then mkDomElement false (textContent (element c)) else element c)
    n
    (previousData c).

(** Modelled from the spec: the timer "clears a visual flag after a fixed
    delay". What happens to a console is a call of [update], time passing, or
    the oldest timer firing, which a browser allows once the timer is due (the
    timers all have the same delay, so they fire in the order they were set). *)
Inductive Event :=
  | Update (data : string)
  | Wait (ms : nat)
  | Expire.

Definition step (e : Event) (w : World) : option World :=
  match e with
  | Update data => Some (update data w)
  | Wait ms => Some (mkWorld (console w) (clock w + ms) (timers w))
  | Expire =>
      match timers w with
      | due :: rest =>
          if Nat.leb due (clock w)
          then Some (mkWorld (onTimeout (console w)) (clock w) rest)
          else None
      | [] => None
      end
  end.

Fixpoint run (evs : list Event) (w : World) : option World :=
  match evs with
  | [] => Some w
  | e :: evs' =>
      match step e w with
      | Some w' => run evs' w'
      | None => None
      end
  end.

(** The calls of [update] in [evs] that get past the comparison with
    [previousData], which is [prev] at the start. *)
Fixpoint effective (prev : string) (evs : list Event) : nat :=
  match evs with
  | [] => 0
  | Update data :: evs' =>
      if String.eqb prev data then effective prev evs'
      else S (effective data evs')
  | _ :: evs' => effective prev evs'
  end.

(** The timers that fire in [evs]. *)
Fixpoint expiries (evs : list Event) : nat :=
  match evs with
  | [] => 0
  | Expire :: evs' => S (expiries evs')
  | _ :: evs' => expiries evs'
  end.

(** The counter is the number of timers not fired yet, and the flag is set
    while there is one. *)
Definition consistent (w : World) : Prop :=
  consoleUpdates (console w) = Z.of_nat (length (timers w)) /\
  (timers w <> [] -> updated (element (console w)) = true).

End Console.

(** ** Sample documents *)

Definition permissive : Schema := fun _ _ => true.

(** Headings are allowed everywhere but before the block at index 1. *)
Definition restrictive : Schema :=
  fun _ p => negb (Nat.eqb (offset p) 1).

Definition sample_blocks : list Element :=
  [mkElement "heading1" 3; mkElement "heading2" 5; mkElement "paragraph" 7].

(** A selection from inside block [i] to inside block [j]. *)
Definition select (i j : nat) : Selection :=
  mkSelection [mkRange (mkPosition (Block i) 0) (mkPosition (Block j) 1)].

(** An editor with nothing in its history, the paragraph command in step
    with the document. *)
Definition sample_editor (bs : list Element) (sel : Selection) (sch : Schema) : Editor :=
  paragraph_changesDone (mkEditor (mkDocument bs sel sch [] 0) [] true).

(** The console after ["a"] was written at 0 ms and 100 ms have passed, and
    the console 500 ms later, ["b"] written in between and both timers fired. *)
Definition sample_world : Console.World :=
  Console.mkWorld
    (Console.mkConsole (Console.mkDomElement true "'a'") 1 "a") 100 [500].

Definition sample_world_end : Console.World :=
  Console.mkWorld
    (Console.mkConsole (Console.mkDomElement false "'b'") 0 "b") 600 [].

(** The editor with the sample blocks and nothing selected. *)
Definition ed_unselected : Editor :=
  sample_editor sample_blocks (mkSelection []) permissive.

(** The refused heading2 and the paragraph selected. *)
Definition ed_tail : Editor := sample_editor sample_blocks (select 1 2) restrictive.

(** Headings are allowed everywhere, paragraphs nowhere. *)
Definition no_paragraph : Schema :=
  fun n _ => negb (String.eqb n "paragraph").

(** One heading1, selected, where no paragraph is allowed: the paragraph
    command is disabled. *)
Definition ed_no_paragraph : Editor :=
  sample_editor [mkElement "heading1" 4] (select 0 0) no_paragraph.

(** One heading2, selected, where no paragraph is allowed. *)
Definition ed_heading2_no_paragraph : Editor :=
  sample_editor [mkElement "heading2" 4] (select 0 0) no_paragraph.

(** The heading1 command as constructed, and with [value] true. *)
Definition heading1_off : HeadingCommand := new_HeadingCommand "heading1".
Definition heading1_on : HeadingCommand := mkHeadingCommand "heading1" true true.

(** heading1, heading2 and paragraph, all three selected, headings allowed
    everywhere. *)
Definition ed_all : Editor := sample_editor sample_blocks (select 0 2) permissive.

(** The same, with no heading allowed in place of the block at index 1. *)
Definition ed_guarded : Editor := sample_editor sample_blocks (select 0 2) restrictive.

(** Only the block at index 1 selected, where no heading is allowed. *)
Definition ed_refused : Editor := sample_editor sample_blocks (select 1 1) restrictive.

(** One paragraph, selected, headings allowed. *)
Definition ed_paragraph : Editor :=
  sample_editor [mkElement "paragraph" 4] (select 0 0) permissive.

(** One heading1, selected, headings allowed. *)
Definition ed_heading : Editor :=
  sample_editor [mkElement "heading1" 4] (select 0 0) permissive.

(** ** Runs on the sample documents *)

(** [value] true: the heading1 is reverted in a fresh batch, by the paragraph
    command; the heading2 and the paragraph stay. *)
Example run_remove :
  let r := _doExecute heading1_on no_options ed_all in
  map name (blocks (document (snd r))) = ["paragraph"; "heading2"; "paragraph"] /\
  history (document (snd r)) = [(0, RenameOperation 0 "heading1" "paragraph")] /\
  length (executed (snd r)) = 1 /\
  batches (document (snd r)) = 1 /\
  value (fst r) = false.
Proof. repeat split. Qed.

(** [value] false: the paragraph is renamed in the batch of the caller, the
    refused heading2 and the heading1 stay. *)
Example run_apply :
  let r := _doExecute heading1_off (mkOptions None (Some 7)) ed_guarded in
  map name (blocks (document (snd r))) = ["heading1"; "heading2"; "heading1"] /\
  history (document (snd r)) = [(7, RenameOperation 2 "paragraph" "heading1")] /\
  executed (snd r) = [] /\
  batches (document (snd r)) = 0 /\
  value (fst r) = true.
Proof. repeat split. Qed.

(** Two writes 100 ms apart: when the first timer fires the flag stays, the
    counter is 1; a write of the same data again changes nothing. *)
Example run_console :
  Console.run
    [Console.Update "a"; Console.Wait 100; Console.Update "b"; Console.Update "b";
     Console.Wait 400; Console.Expire]
    (Console.new_World (Console.mkDomElement false ""))
  = Some (Console.mkWorld
            (Console.mkConsole (Console.mkDomElement true "'b'") 1 "b") 500 [600]).
Proof. reflexivity. Qed.

(** A timer does not fire before it is due. *)
Example run_console_early :
  Console.run [Console.Update "a"; Console.Wait 499; Console.Expire]
    (Console.new_World (Console.mkDomElement false "")) = None.
Proof. reflexivity. Qed.

(** ** Lemmas on the framework model *)

Lemma set_name_same (e : Element) (n : string) : name e = n -> set_name n e = e.
Proof. intros <-. by destruct e. Qed.

Lemma elem_of_unvisited (visited l : list nat) (x : nat) :
  x ∈ unvisited visited l -> x ∈ l /\ x ∉ visited.
Proof.
  revert visited. induction l as [|y l IH]; intros visited; cbn [unvisited].
  - intros H. by apply elem_of_nil in H.
  - destruct (decide (y ∈ visited)) as [Hy|Hy].
    + intros H. apply IH in H as [? ?]. split; [by apply list_elem_of_further|done].
    + rewrite elem_of_cons. intros [->|H].
      * split; [apply list_elem_of_here|done].
      * apply IH in H as [? Hx]. split; [by apply list_elem_of_further|].
        intros Hv. apply Hx. by apply list_elem_of_further.
Qed.

Lemma NoDup_unvisited (visited l : list nat) : NoDup (unvisited visited l).
Proof.
  revert visited. induction l as [|y l IH]; intros visited; cbn [unvisited].
  - constructor.
  - destruct (decide (y ∈ visited)); [apply IH|].
    constructor; [|apply IH].
    intros H. apply elem_of_unvisited in H as [_ H]. apply H, list_elem_of_here.
Qed.

Lemma NoDup_getSelectedBlocks (doc : Document) (sel : Selection) :
  NoDup (getSelectedBlocks doc sel).
Proof. apply NoDup_unvisited. Qed.

Lemma getSelectedBlocks_lt (doc : Document) (sel : Selection) (i : nat) :
  i ∈ getSelectedBlocks doc sel -> i < length (blocks doc).
Proof.
  unfold getSelectedBlocks. intros H.
  apply elem_of_unvisited in H as [H _]. apply list_elem_of_filter in H. tauto.
Qed.

Lemma getSelectedBlocks_lookup (doc : Document) (sel : Selection) (i : nat) :
  i ∈ getSelectedBlocks doc sel -> is_Some (blocks doc !! i).
Proof. intros H. apply lookup_lt_is_Some. by eapply getSelectedBlocks_lt. Qed.

(** The selection made of [Range.createIn( block )] selects that block and
    no other. *)
Lemma getSelectedBlocks_createIn (doc doc' : Document) (i : nat) :
  i < length (blocks doc) ->
  getSelectedBlocks doc (addRange new_Selection (createIn doc' i)) = [i].
Proof.
  intros Hi.
  unfold getSelectedBlocks, addRange, createIn, blocksOfRange, firstBlock,
    pastLastBlock.
  simpl. replace (S i - i) with 1 by lia. simpl.
  rewrite filter_cons_True by done. reflexivity.
Qed.

Lemma eligibleBlocks_NoDup (this : HeadingCommand) (doc : Document) :
  NoDup (eligibleBlocks this doc).
Proof. apply NoDup_filter, NoDup_getSelectedBlocks. Qed.

Lemma elem_of_eligibleBlocks (this : HeadingCommand) (doc : Document) (i : nat) :
  i ∈ eligibleBlocks this doc <->
  i ∈ getSelectedBlocks doc (selection doc) /\
  checkCanBecomeHeading i (modelElement this) (schema doc) = true.
Proof. unfold eligibleBlocks. rewrite list_elem_of_filter. tauto. Qed.

Lemma alter_lookup_Some {A} (f : A -> A) (l : list A) (i : nat) (x : A) :
  l !! i = Some x -> alter f i l = <[i := f x]> l.
Proof.
  intros H. apply list_eq. intros j.
  destruct (decide (i = j)) as [<-|Hne].
  - rewrite list_lookup_alter_eq, H, list_lookup_insert_eq; [done|].
    apply lookup_lt_is_Some; eauto.
  - by rewrite list_lookup_alter_ne, list_lookup_insert_ne.
Qed.

Lemma alter_lookup_None {A} (f : A -> A) (l : list A) (i : nat) :
  l !! i = None -> alter f i l = l.
Proof.
  intros H. apply list_eq. intros j.
  destruct (decide (i = j)) as [<-|Hne].
  - by rewrite list_lookup_alter_eq, H.
  - by rewrite list_lookup_alter_ne.
Qed.

Lemma alter_lookup_fix {A} (f : A -> A) (l : list A) (i : nat) (x : A) :
  l !! i = Some x -> f x = x -> alter f i l = l.
Proof.
  intros H Hf. rewrite (alter_lookup_Some _ _ _ _ H), Hf.
  by apply list_insert_id.
Qed.

(** ** The loop body does what [visit] says *)

Lemma exec_forEach_cons {A} (x : A) (l : list A) (body : A -> M unit) (ed : Editor) :
  exec (forEach (x :: l) body) ed = exec (forEach l body) (exec (body x) ed).
Proof. unfold exec. simpl. unfold bind. by destruct (body x ed). Qed.

(** The delegated paragraph command, enabled, run on the range in one block. *)
Lemma editor_execute_paragraph_createIn (ed : Editor) (doc' : Document)
    (batch : Batch) (block : nat) (e : Element) :
  blocks (document ed) !! block = Some e ->
  paragraphEnabled ed = true ->
  let options :=
    mkOptions (Some (addRange new_Selection (createIn doc' block))) (Some batch) in
  let doc := document ed in
  exec (editor_execute_paragraph options) ed
  = mkEditor
      (mkDocument
         (if String.eqb (name e) "paragraph" then blocks doc
          else <[block := set_name "paragraph" e]> (blocks doc))
         (selection doc) (schema doc)
         (history doc ++
            if String.eqb (name e) "paragraph" then []
            else [(batch, RenameOperation block (name e) "paragraph")])
         (batches doc))
      (executed ed ++ [("paragraph", options)])
      true.
Proof.
  intros He Hen options doc.
  assert (Hlt : block < length (blocks doc)).
  { apply lookup_lt_is_Some. subst doc. eauto. }
  destruct ed as [[bs sel sch hist n] ex en]. simpl in *. subst en.
  unfold exec, editor_execute_paragraph, paragraph_doExecute, bind, gets. simpl.
  rewrite (getSelectedBlocks_createIn _ doc' block) by exact Hlt.
  simpl. unfold bind, is_. simpl. rewrite He.
  destruct (String.eqb (name e) "paragraph"); simpl.
  - by rewrite app_nil_r.
  - unfold batch_rename, modify_document. simpl. by rewrite He.
Qed.

(** The delegated paragraph command, disabled: the call is recorded and
    nothing else happens. *)
Lemma editor_execute_paragraph_disabled (ed : Editor) (options : Options) :
  paragraphEnabled ed = false ->
  exec (editor_execute_paragraph options) ed
  = mkEditor (document ed) (executed ed ++ [("paragraph", options)]) false.
Proof.
  intros Hen. destruct ed as [doc ex en]. simpl in Hen. subst en. reflexivity.
Qed.

Lemma _doExecute_block_spec (this : HeadingCommand) (shouldRemove : bool)
    (batch : Batch) (block : nat) (ed : Editor) :
  exec (_doExecute_block this shouldRemove batch block) ed
  = visit (modelElement this) shouldRemove batch block ed.
Proof.
  unfold _doExecute_block, visit, ops_of, calls_of, is_.
  destruct (blocks (document ed) !! block) as [e|] eqn:He.
  - destruct shouldRemove, (String.eqb_spec (name e) (modelElement this)) as [Hn|Hn].
    + unfold exec, bind, gets. rewrite He.
      apply String.eqb_eq in Hn as Hb. rewrite Hb.
      destruct (paragraphEnabled ed) eqn:Hen.
      * pose proof (editor_execute_paragraph_createIn ed (document ed) batch block e
                      He Hen) as Hp.
        unfold exec in Hp. simpl in Hp. rewrite Hp. simpl.
        rewrite (alter_lookup_Some _ _ _ _ He). unfold new_element. rewrite Hb.
        destruct (String.eqb_spec (name e) "paragraph") as [Hpar|Hpar]; simpl.
        -- rewrite (set_name_same _ _ Hpar), (list_insert_id _ _ _ He). reflexivity.
        -- reflexivity.
      * pose proof (editor_execute_paragraph_disabled ed
                      (mkOptions (Some (addRange new_Selection
                                          (createIn (document ed) block)))
                                 (Some batch)) Hen) as Hp.
        unfold exec in Hp. simpl in Hp. rewrite Hp. simpl.
        rewrite (alter_lookup_fix _ _ _ _ He)
          by (unfold new_element; by rewrite Hb).
        rewrite !app_nil_r. by destruct (document ed).
    + apply String.eqb_neq in Hn as Hb.
      unfold exec, bind, gets. rewrite He, Hb. simpl.
      rewrite (alter_lookup_fix _ _ _ _ He)
        by (unfold new_element; by rewrite Hb).
      rewrite !app_nil_r. by destruct ed as [[] ? ?].
    + apply String.eqb_eq in Hn as Hb.
      unfold exec, bind, gets. rewrite He, Hb. simpl.
      rewrite (alter_lookup_fix _ _ _ _ He)
        by (unfold new_element; by apply set_name_same).
      rewrite !app_nil_r. by destruct ed as [[] ? ?].
    + apply String.eqb_neq in Hn as Hb.
      unfold exec, bind, gets, batch_rename, modify_document.
      rewrite He, Hb. simpl. rewrite He.
      by rewrite (alter_lookup_Some _ _ _ _ He), app_nil_r.
  - rewrite (alter_lookup_None _ _ _ He), andb_false_r, !app_nil_r.
    unfold exec, bind, gets, batch_rename, modify_document. rewrite He.
    destruct shouldRemove; simpl; [|rewrite He]; by destruct ed as [[] ? ?].
Qed.

Lemma forEach_block_spec (this : HeadingCommand) (shouldRemove : bool)
    (batch : Batch) (l : list nat) (ed : Editor) :
  exec (forEach l (_doExecute_block this shouldRemove batch)) ed
  = visits (modelElement this) shouldRemove batch l ed.
Proof.
  revert ed. induction l as [|x l IH]; intros ed; [reflexivity|].
  rewrite exec_forEach_cons, _doExecute_block_spec. apply IH.
Qed.

(** ** What a whole loop does *)

Section Visits.
Variables (T : string) (shouldRemove : bool) (batch : Batch).

Lemma new_element_idemp (enabled : bool) (e : Element) :
  new_element T shouldRemove enabled (new_element T shouldRemove enabled e)
  = new_element T shouldRemove enabled e.
Proof.
  unfold new_element. destruct shouldRemove; [|reflexivity].
  destruct (String.eqb (name e) T && enabled) eqn:Hn; [|by rewrite Hn].
  change (name (set_name "paragraph" e)) with "paragraph".
  destruct (String.eqb "paragraph" T && enabled); reflexivity.
Qed.

Lemma ops_of_ext (enabled : bool) (doc doc' : Document) (i : nat) :
  blocks doc !! i = blocks doc' !! i ->
  ops_of T shouldRemove enabled batch doc i = ops_of T shouldRemove enabled batch doc' i.
Proof. unfold ops_of. by intros ->. Qed.

Lemma calls_of_ext (doc doc' : Document) (i : nat) :
  blocks doc !! i = blocks doc' !! i -> calls_of T shouldRemove batch doc i = calls_of T shouldRemove batch doc' i.
Proof. unfold calls_of, is_, createIn. by intros ->. Qed.

Lemma visits_frame (l : list nat) (ed : Editor) :
  let doc := document ed in
  let doc' := document (visits T shouldRemove batch l ed) in
  selection doc' = selection doc /\ schema doc' = schema doc /\
  batches doc' = batches doc /\ length (blocks doc') = length (blocks doc).
Proof.
  revert ed. induction l as [|x l IH]; intros ed; simpl; [done|].
  destruct (IH (visit T shouldRemove batch x ed)) as (-> & -> & -> & ->). simpl.
  by rewrite length_alter.
Qed.

(** The loop never touches the [isEnabled] of the paragraph command. *)
Lemma visits_paragraphEnabled (l : list nat) (ed : Editor) :
  paragraphEnabled (visits T shouldRemove batch l ed) = paragraphEnabled ed.
Proof.
  revert ed. induction l as [|x l IH]; intros ed; cbn [visits]; [done|].
  by rewrite IH.
Qed.

Lemma visits_blocks (l : list nat) (ed : Editor) (i : nat) :
  blocks (document (visits T shouldRemove batch l ed)) !! i
  = (if decide (i ∈ l) then new_element T shouldRemove (paragraphEnabled ed) else id)
      <$> blocks (document ed) !! i.
Proof.
  revert ed. induction l as [|x l IH]; intros ed; cbn [visits].
  - rewrite decide_False by apply not_elem_of_nil. by destruct (_ !! i).
  - rewrite IH. cbn [document blocks visit paragraphEnabled].
    destruct (decide (x = i)) as [->|Hne].
    + rewrite list_lookup_alter_eq.
      rewrite (decide_True (P := i ∈ i :: l)) by apply list_elem_of_here.
      destruct (blocks (document ed) !! i) as [e|]; simpl; [|by case_decide].
      case_decide; simpl; [by rewrite new_element_idemp|done].
    + rewrite list_lookup_alter_ne by done.
      destruct (decide (i ∈ l)) as [Hin|Hin].
      * by rewrite (decide_True (P := i ∈ x :: l)) by by apply list_elem_of_further.
      * rewrite (decide_False (P := i ∈ x :: l)); [done|].
        rewrite elem_of_cons. intros [->|?]; done.
Qed.

Lemma visits_history (l : list nat) (ed : Editor) :
  NoDup l ->
  history (document (visits T shouldRemove batch l ed))
  = history (document ed) ++
    concat (map (ops_of T shouldRemove (paragraphEnabled ed) batch (document ed)) l).
Proof.
  intros Hl. revert ed. induction Hl as [|x l Hx Hl IH]; intros ed; simpl.
  - by rewrite app_nil_r.
  - rewrite IH. simpl. rewrite <- app_assoc. do 3 f_equal.
    apply map_ext_in. intros y Hy. apply ops_of_ext. simpl.
    apply list_lookup_alter_ne. intros ->. apply Hx. by apply list_elem_of_In.
Qed.

Lemma visits_executed (l : list nat) (ed : Editor) :
  NoDup l ->
  executed (visits T shouldRemove batch l ed)
  = executed ed ++ concat (map (calls_of T shouldRemove batch (document ed)) l).
Proof.
  intros Hl. revert ed. induction Hl as [|x l Hx Hl IH]; intros ed; simpl.
  - by rewrite app_nil_r.
  - rewrite IH. simpl. rewrite <- app_assoc. do 3 f_equal.
    apply map_ext_in. intros y Hy. apply calls_of_ext. simpl.
    apply list_lookup_alter_ne. intros ->. apply Hx. by apply list_elem_of_In.
Qed.

End Visits.

Lemma batch_of_spec (options : Options) (ed : Editor) :
  let doc := document ed in
  batch_of options ed
  = (batch_used options ed,
     mkEditor (mkDocument (blocks doc) (selection doc) (schema doc) (history doc)
                 (batches doc + match opt_batch options with Some _ => 0 | None => 1 end))
              (executed ed) (paragraphEnabled ed)).
Proof.
  unfold batch_of, batch_used, document_batch, ret.
  destruct ed as [[] ? ?], (opt_batch options); simpl; f_equal; f_equal; f_equal; lia.
Qed.

Lemma _doExecute_changes_spec (this : HeadingCommand) (shouldRemove : bool)
    (options : Options) (ed : Editor) :
  exec (_doExecute_changes this shouldRemove options) ed
  = visits (modelElement this) shouldRemove (batch_used options ed)
      (eligibleBlocks this (document ed)) (snd (batch_of options ed)).
Proof.
  rewrite <- forEach_block_spec.
  unfold exec, _doExecute_changes, bind, gets.
  rewrite batch_of_spec. reflexivity.
Qed.

(** Everything one execution changes, read off the state it starts in. *)
Lemma _doExecute_effects (this : HeadingCommand) (options : Options) (ed : Editor) :
  let T := modelElement this in
  let sr := value this in
  let en := paragraphEnabled ed in
  let b := batch_used options ed in
  let doc := document ed in
  let l := eligibleBlocks this doc in
  let ed' := snd (_doExecute this options ed) in
  let doc' := document ed' in
  (forall i, blocks doc' !! i
             = (if decide (i ∈ l) then new_element T sr en else id) <$> blocks doc !! i) /\
  history doc' = history doc ++ concat (map (ops_of T sr en b doc) l) /\
  executed ed' = executed ed ++ concat (map (calls_of T sr b doc) l) /\
  selection doc' = selection doc /\
  schema doc' = schema doc /\
  batches doc' = batches doc + match opt_batch options with Some _ => 0 | None => 1 end /\
  length (blocks doc') = length (blocks doc).
Proof.
  intros T sr en b doc l ed' doc'.
  assert (Hed' : ed' = paragraph_changesDone
                         (visits T sr b l (snd (batch_of options ed)))).
  { subst ed'. unfold _doExecute, enqueueChanges. simpl. f_equal.
    apply _doExecute_changes_spec. }
  pose proof (eligibleBlocks_NoDup this doc) as Hnd. fold l in Hnd.
  subst doc'. rewrite Hed', batch_of_spec. simpl.
  set (ed0 := mkEditor _ _ _).
  destruct (visits_frame T sr b l ed0) as (Hs & Hc & Hb & Hlen).
  repeat split.
  - intros i. by rewrite visits_blocks.
  - rewrite visits_history by done. simpl. f_equal.
  - rewrite visits_executed by done. simpl. f_equal.
  - by rewrite Hs.
  - by rewrite Hc.
  - by rewrite Hb.
  - by rewrite Hlen.
Qed.

(** The selected blocks are the same after an execution: the selection is not
    touched and a rename keeps every block in place. *)
Lemma _doExecute_selectedBlocks (this : HeadingCommand) (options : Options)
    (ed : Editor) :
  selectedBlocks (snd (_doExecute this options ed)) = selectedBlocks ed.
Proof.
  destruct (_doExecute_effects this options ed) as (_ & _ & _ & Hs & _ & _ & Hl).
  cbv zeta in Hs, Hl. unfold selectedBlocks, getSelectedBlocks.
  by rewrite Hs, Hl.
Qed.

Lemma value_changesDone (this : HeadingCommand) (ed : Editor) :
  value (changesDone this ed)
  = match selectedBlocks ed with
    | [] => false
    | b :: _ => is_ (document ed) b (modelElement this)
    end.
Proof. unfold changesDone, refreshState, refreshValue. simpl. by destruct (selectedBlocks ed). Qed.

(** After an execution the paragraph command is enabled exactly when its
    check passes on the document the execution started from: the check reads
    the selection and the schema, which a rename leaves alone. *)
Lemma _doExecute_paragraphEnabled (this : HeadingCommand) (options : Options)
    (ed : Editor) :
  paragraphEnabled (snd (_doExecute this options ed)) = paragraph_checkEnabled ed.
Proof.
  change (paragraphEnabled (snd (_doExecute this options ed)))
    with (paragraph_checkEnabled (snd (_doExecute this options ed))).
  unfold paragraph_checkEnabled.
  rewrite (_doExecute_selectedBlocks this options ed).
  destruct (_doExecute_effects this options ed) as (_ & _ & _ & _ & Hsch & _).
  cbv zeta in Hsch. by rewrite Hsch.
Qed.

Lemma ops_of_apply (T : string) (en : bool) (b : Batch) (doc : Document)
    (l : list nat) :
  (forall i, i ∈ l -> is_Some (blocks doc !! i)) ->
  concat (map (ops_of T false en b doc) l)
  = map (fun i => (b, RenameOperation i (nameOf doc i) T))
        (filter (fun i => is_ doc i T = false) l).
Proof.
  induction l as [|x l IH]; intros Hl; [reflexivity|].
  cbn [map concat]. rewrite IH by (intros; apply Hl; by apply list_elem_of_further).
  destruct (Hl x) as [e He]; [apply list_elem_of_here|].
  unfold ops_of at 1. rewrite He.
  destruct (String.eqb (name e) T) eqn:Hn.
  - rewrite filter_cons_False; [done|]. unfold is_. rewrite He. congruence.
  - rewrite filter_cons_True by (unfold is_; by rewrite He).
    simpl. unfold nameOf. by rewrite He.
Qed.

Lemma calls_of_remove (T : string) (b : Batch) (doc : Document) (l : list nat) :
  concat (map (calls_of T true b doc) l)
  = map (fun i => ("paragraph",
                   mkOptions (Some (mkSelection [createIn doc i])) (Some b)))
        (filter (fun i => is_ doc i T = true) l).
Proof.
  induction l as [|x l IH]; [reflexivity|].
  cbn [map concat]. rewrite IH. unfold calls_of at 1. simpl.
  destruct (is_ doc x T) eqn:Hx.
  - by rewrite filter_cons_True.
  - rewrite filter_cons_False; [done|congruence].
Qed.

Lemma calls_of_apply (T : string) (b : Batch) (doc : Document) (l : list nat) :
  concat (map (calls_of T false b doc) l) = [].
Proof. induction l as [|x l IH]; [reflexivity|]. simpl. exact IH. Qed.

Lemma ops_of_batch (T : string) (sr en : bool) (b : Batch) (doc : Document)
    (l : list nat) :
  Forall (fun op => fst op = b /\ op_block (snd op) ∈ l)
         (concat (map (ops_of T sr en b doc) l)).
Proof.
  induction l as [|x l IH]; [constructor|].
  cbn [map concat]. apply Forall_app. split.
  - unfold ops_of. destruct (blocks doc !! x) as [e|]; [|constructor].
    destruct sr, en, (String.eqb (name e) T); simpl;
      try destruct (negb _); repeat constructor; simpl; apply list_elem_of_here.
  - eapply Forall_impl; [exact IH|]. intros op [? ?]. split; [done|].
    by apply list_elem_of_further.
Qed.

Lemma calls_of_batch (T : string) (sr : bool) (b : Batch) (doc : Document)
    (l : list nat) :
  Forall (fun c => exists i, i ∈ l /\
            c = ("paragraph",
                 mkOptions (Some (mkSelection [createIn doc i])) (Some b)))
         (concat (map (calls_of T sr b doc) l)).
Proof.
  induction l as [|x l IH]; [constructor|].
  cbn [map concat]. apply Forall_app. split.
  - unfold calls_of. destruct (sr && is_ doc x T); repeat constructor.
    exists x. split; [apply list_elem_of_here|done].
  - eapply Forall_impl; [exact IH|]. intros c (i & ? & ?). exists i.
    split; [by apply list_elem_of_further|done].
Qed.

(** ** The console: counter, flag and timers *)

Module ConsoleFacts.
Import Console.

Lemma new_World_consistent (el : DomElement) : consistent (new_World el).
Proof. split; [reflexivity|]. intros H. by destruct H. Qed.

Lemma update_effective (data : string) (w : World) :
  previousData (console w) <> data ->
  update data w
  = mkWorld
      (mkConsole
         (mkDomElement true (String.append "'" (String.append data "'")))
         (consoleUpdates (console w) + 1) data)
      (clock w) (timers w ++ [clock w + delay]).
Proof. intros H. unfold update. apply String.eqb_neq in H. by rewrite H. Qed.

Lemma step_consistent (e : Event) (w w' : World) :
  consistent w -> step e w = Some w' -> consistent w'.
Proof.
  intros [Hc Hf] Hs. destruct e as [data|ms|]; simpl in Hs.
  - injection Hs as <-. unfold update.
    destruct (String.eqb (previousData (console w)) data); [by split|].
    split; simpl; [|done]. rewrite Hc, length_app. simpl. lia.
  - injection Hs as <-. by split.
  - destruct (timers w) as [|due rest] eqn:Ht; [discriminate|].
    destruct (Nat.leb due (clock w)) eqn:Hdue; [|discriminate]. injection Hs as <-.
    cbn [length] in Hc. unfold onTimeout, consistent.
    cbn [console timers element consoleUpdates]. split; [lia|].
    intros Hrest.
    destruct (Z.eqb_spec (consoleUpdates (console w) - 1) 0) as [Hz|Hz].
    + destruct rest; [done|]. cbn [length] in Hc. lia.
    + by apply Hf.
Qed.

Lemma run_consistent (evs : list Event) (w w' : World) :
  consistent w -> run evs w = Some w' -> consistent w'.
Proof.
  revert w. induction evs as [|e evs IH]; intros w Hw Hr; simpl in Hr.
  - by injection Hr as <-.
  - destruct (step e w) as [w1|] eqn:Hs; [|discriminate].
    eapply IH; [|exact Hr]. by eapply step_consistent.
Qed.

Lemma run_app (evs1 evs2 : list Event) (w : World) :
  run (evs1 ++ evs2) w
  = match run evs1 w with
    | Some w' => run evs2 w'
    | None => None
    end.
Proof.
  revert w. induction evs1 as [|e evs1 IH]; intros w; simpl; [done|].
  destruct (step e w); [apply IH|done].
Qed.

(** The timers over a run: those that were pending and those set in the run
    are the ones that fired in it, in that order, and the ones still pending. *)
Lemma run_timers (evs : list Event) (w w' : World) :
  run evs w = Some w' ->
  exists fired added,
    timers w ++ added = fired ++ timers w' /\
    length fired = expiries evs /\
    length added = effective (previousData (console w)) evs /\
    clock w <= clock w'.
Proof.
  revert w. induction evs as [|e evs IH]; intros w Hr; cbn [run] in Hr.
  - injection Hr as <-. exists [], []. by rewrite app_nil_r.
  - destruct (step e w) as [w1|] eqn:Hs; [|discriminate].
    destruct (IH w1 Hr) as (fired & added & Ht & Hf & Ha & Hc).
    destruct e as [data|ms|]; cbn [step] in Hs.
    + injection Hs as <-. unfold update in *. cbn [effective expiries].
      destruct (String.eqb (previousData (console w)) data).
      * by exists fired, added.
      * cbn [console timers clock previousData] in *.
        exists fired, ((clock w + delay) :: added).
        rewrite <- Ht, <- app_assoc. cbn [length app].
        split; [done|]. split; [done|]. split; [by rewrite Ha|done].
    + injection Hs as <-. cbn [console timers clock effective expiries] in *.
      exists fired, added. split; [done|]. split; [done|]. split; [done|lia].
    + destruct (timers w) as [|due rest] eqn:Hw; [discriminate|].
      destruct (Nat.leb due (clock w)) eqn:Hdue; [|discriminate].
      injection Hs as <-.
      cbn [console timers clock effective expiries onTimeout previousData] in *.
      exists (due :: fired), added. cbn [length app].
      rewrite Ht. split; [done|]. split; [by rewrite Hf|]. split; done.
Qed.

End ConsoleFacts.

Ltac in_selection :=
  apply elem_of_eligibleBlocks; split; [vm_compute; repeat constructor|reflexivity].

Ltac case_eqb :=
  match goal with
  | |- context [String.eqb ?a ?b] => destruct (String.eqb_spec a b)
  end.

(** * The claims *)

(** C1, as the code has it: when [value] is true, an execution calls the
    paragraph command once for every selected block that passes the schema
    check and has the name [modelElement], each time on a selection made of
    the one range [Range.createIn( block )], which selects that block alone.
    Where the paragraph command is enabled and the schema allows a paragraph
    in the place of the block, the block ends as a ['paragraph']; where the
    paragraph command is disabled the block stays as it is. The eligible
    blocks of another name are left as they are. *)
Theorem C1_remove_reverts_target_blocks (this : HeadingCommand)
    (options : Options) (ed : Editor) :
  value this = true ->
  let T := modelElement this in
  let doc := document ed in
  let ed' := snd (_doExecute this options ed) in
  let doc' := document ed' in
  executed ed'
  = executed ed ++
    map (fun i => ("paragraph",
                   mkOptions (Some (addRange new_Selection (createIn doc i)))
                             (Some (batch_used options ed))))
        (filter (fun i => is_ doc i T = true) (eligibleBlocks this doc)) /\
  (forall i e,
     i ∈ eligibleBlocks this doc -> blocks doc !! i = Some e -> name e = T ->
     getSelectedBlocks doc (addRange new_Selection (createIn doc i)) = [i] /\
     (paragraphEnabled ed = true ->
      schema doc "paragraph" (createBefore i) = true ->
      blocks doc' !! i = Some (set_name "paragraph" e)) /\
     (paragraphEnabled ed = false -> blocks doc' !! i = Some e)) /\
  (forall i e,
     i ∈ eligibleBlocks this doc -> blocks doc !! i = Some e -> name e <> T ->
     blocks doc' !! i = Some e).
Proof.
  intros Hv T doc ed' doc'.
  destruct (_doExecute_effects this options ed) as (Hb & _ & Hx & _).
  fold T doc ed' doc' in Hb, Hx. rewrite Hv in Hb, Hx.
  split; [|split].
  - by rewrite Hx, calls_of_remove.
  - intros i e Hi He Hn. split.
    + apply getSelectedBlocks_createIn, lookup_lt_is_Some. eauto.
    + rewrite Hb, decide_True, He by done. simpl. unfold new_element.
      apply String.eqb_eq in Hn. rewrite Hn.
      split; [intros -> _|intros ->]; reflexivity.
  - intros i e Hi He Hn. rewrite Hb, decide_True, He by done. simpl.
    unfold new_element. apply String.eqb_neq in Hn. by rewrite Hn.
Qed.

(** C1 as stated fails: with heading1, heading2 and a paragraph selected and
    [value] true for heading1 (the first block is a heading1), the heading2
    and the paragraph are eligible, yet the execution leaves the heading2 a
    heading2: not every eligible block ends as a paragraph. It fails as well
    where the schema allows no paragraph: the paragraph command is disabled
    and the selected heading1 stays a heading1. *)
Lemma C1_counterexample :
  (value (changesDone heading1_on ed_all) = true /\
   ~ (forall i,
        i ∈ eligibleBlocks heading1_on (document ed_all) ->
        nameOf (document (snd (_doExecute heading1_on no_options ed_all))) i
        = "paragraph")) /\
  (value (changesDone heading1_on ed_no_paragraph) = true /\
   ~ (forall i,
        i ∈ eligibleBlocks heading1_on (document ed_no_paragraph) ->
        nameOf (document (snd (_doExecute heading1_on no_options ed_no_paragraph))) i
        = "paragraph")).
Proof.
  split; (split; [reflexivity|]); intros H.
  - assert (H1 : 1 ∈ eligibleBlocks heading1_on (document ed_all)) by in_selection.
    specialize (H 1 H1). vm_compute in H. discriminate.
  - assert (H0 : 0 ∈ eligibleBlocks heading1_on (document ed_no_paragraph))
      by in_selection.
    specialize (H 0 H0). vm_compute in H. discriminate.
Qed.

(** C1 at [ed_all]: one paragraph command, on the range in the heading1,
    which becomes a paragraph. *)
Lemma C1_witness :
  executed (snd (_doExecute heading1_on no_options ed_all))
  = [("paragraph",
      mkOptions
        (Some (mkSelection
                 [mkRange (mkPosition (Block 0) 0) (mkPosition (Block 0) 3)]))
        (Some 0))] /\
  blocks (document (snd (_doExecute heading1_on no_options ed_all))) !! 0
  = Some (mkElement "paragraph" 3).
Proof.
  destruct (C1_remove_reverts_target_blocks heading1_on no_options ed_all eq_refl)
    as (Hx & Hb & _).
  split; [exact Hx|].
  refine (proj1 (proj2 (Hb 0 (mkElement "heading1" 3) _ eq_refl eq_refl))
            eq_refl eq_refl).
  in_selection.
Defined.

(** C2: the listener on ['changesDone'] recomputes [value], an execution of
    the command ends with that listener, and the recomputed value is true
    exactly when the selection has a first block and that block has the name
    [modelElement]; the blocks after the first play no part. *)
Theorem C2_value_is_first_block (this : HeadingCommand) (ed : Editor) :
  (value (changesDone this ed) = true <->
     exists b rest e,
       selectedBlocks ed = b :: rest /\
       blocks (document ed) !! b = Some e /\
       name e = modelElement this) /\
  (forall options,
     fst (_doExecute this options ed)
     = changesDone this (snd (_doExecute this options ed))).
Proof.
  split; [|reflexivity].
  unfold changesDone, refreshState, refreshValue, is_. simpl.
  destruct (selectedBlocks ed) as [|b rest]; simpl.
  - split; [discriminate|]. intros (? & ? & ? & ? & _). discriminate.
  - destruct (blocks (document ed) !! b) as [e|] eqn:He.
    + rewrite String.eqb_eq. split.
      * intros Hn. by exists b, rest, e.
      * intros (b' & rest' & e' & [= <- <-] & He' & Hn). congruence.
    + split; [discriminate|].
      intros (b' & rest' & e' & [= <- <-] & He' & Hn). congruence.
Qed.

(** C3: [_checkEnabled] answers false exactly when no block is selected or
    the schema does not allow [modelElement] at the position before the first
    selected block; so it answers false when the only selected block is one
    the schema refuses. *)
Theorem C3_disabled_iff (this : HeadingCommand) (ed : Editor) :
  (_checkEnabled this ed = false <->
     selectedBlocks ed = [] \/
     exists b rest,
       selectedBlocks ed = b :: rest /\
       schema (document ed) (modelElement this) (createBefore b) = false) /\
  (forall b,
     selectedBlocks ed = [b] ->
     checkCanBecomeHeading b (modelElement this) (schema (document ed)) = false ->
     _checkEnabled this ed = false /\ isEnabled (changesDone this ed) = false).
Proof.
  unfold changesDone, refreshState, _checkEnabled, checkCanBecomeHeading. simpl.
  split.
  - destruct (selectedBlocks ed) as [|b rest]; simpl.
    + split; [by left|done].
    + split.
      * intros H. right. by exists b, rest.
      * intros [?|(b' & rest' & [= <- <-] & H)]; done.
  - intros b -> H. simpl. by rewrite H.
Qed.

(** C3 at [ed_refused]: the only selected block is refused, the command is
    disabled. *)
Lemma C3_witness :
  _checkEnabled heading1_off ed_refused = false /\
  isEnabled (changesDone heading1_off ed_refused) = false.
Proof.
  exact (proj2 (C3_disabled_iff heading1_off ed_refused) 1 eq_refl eq_refl).
Defined.

(** C4: when [value] is false, an execution renames to [modelElement] every
    selected block that passes the schema check and does not have that name
    yet (one rename operation each, in selection order, and no other
    operation), and leaves the eligible blocks that already have it as they
    are; no paragraph command is run. *)
Theorem C4_apply_renames_eligible (this : HeadingCommand) (options : Options)
    (ed : Editor) :
  value this = false ->
  let T := modelElement this in
  let doc := document ed in
  let ed' := snd (_doExecute this options ed) in
  let doc' := document ed' in
  (forall i e,
     i ∈ eligibleBlocks this doc -> blocks doc !! i = Some e ->
     name e <> T -> blocks doc' !! i = Some (set_name T e)) /\
  (forall i e,
     i ∈ eligibleBlocks this doc -> blocks doc !! i = Some e ->
     name e = T -> blocks doc' !! i = Some e) /\
  history doc'
  = history doc ++
    map (fun i => (batch_used options ed, RenameOperation i (nameOf doc i) T))
        (filter (fun i => is_ doc i T = false) (eligibleBlocks this doc)) /\
  executed ed' = executed ed.
Proof.
  intros Hv T doc ed' doc'.
  destruct (_doExecute_effects this options ed) as (Hb & Hh & Hx & _).
  fold T doc ed' doc' in Hb, Hh, Hx. rewrite Hv in Hb, Hh, Hx.
  repeat split.
  - intros i e Hi He _. rewrite Hb, decide_True, He by done. reflexivity.
  - intros i e Hi He Hn. rewrite Hb, decide_True, He by done. simpl.
    by rewrite set_name_same.
  - rewrite Hh, ops_of_apply; [done|].
    intros i Hi. apply elem_of_eligibleBlocks in Hi as [Hi _].
    by eapply getSelectedBlocks_lookup.
  - by rewrite Hx, calls_of_apply, app_nil_r.
Qed.

(** C4 at [ed_all]: the heading2 becomes a heading1. *)
Lemma C4_witness :
  blocks (document (snd (_doExecute heading1_off no_options ed_all))) !! 1
  = Some (mkElement "heading1" 5).
Proof.
  refine (proj1 (C4_apply_renames_eligible heading1_off no_options ed_all eq_refl)
            1 (mkElement "heading2" 5) _ eq_refl _).
  - in_selection.
  - discriminate.
Defined.

(** C5: [init] runs to its end in a new editor, and after it each of
    heading1, heading2, heading3 converts to h2, h3, h4 and that tag converts
    back to the same model name; more, whatever the model-to-view table
    converts comes back unchanged through the view-to-model table, and the
    other way round. *)
Theorem C5_conversions_round_trip :
  exists ed,
    FormatEngine.init FormatEngine.new_Editor = FormatEngine.Done ed /\
    let toView := FormatEngine.convert (FormatEngine.modelToView ed) in
    let toModel := FormatEngine.convert (FormatEngine.viewToModel ed) in
    Forall (fun p => toView (fst p) = Some (snd p) /\ toModel (snd p) = Some (fst p))
           FormatEngine.declared /\
    (forall m t, toView m = Some t <-> (m, t) ∈ FormatEngine.declared) /\
    (forall m t, toView m = Some t <-> toModel t = Some m).
Proof.
  eexists. split; [vm_compute; reflexivity|].
  intros toView toModel.
  assert (HV : forall m t, toView m = Some t <-> (m, t) ∈ FormatEngine.declared).
  { intros m t. subst toView. unfold FormatEngine.declared.
    cbn [FormatEngine.modelToView FormatEngine.convert
         FormatEngine.fromElement FormatEngine.toElement].
    rewrite !elem_of_cons, elem_of_nil.
    repeat case_eqb; intuition congruence. }
  assert (HM : forall m t, toModel t = Some m <-> (m, t) ∈ FormatEngine.declared).
  { intros m t. subst toModel. unfold FormatEngine.declared.
    cbn [FormatEngine.viewToModel FormatEngine.convert
         FormatEngine.fromElement FormatEngine.toElement].
    rewrite !elem_of_cons, elem_of_nil.
    repeat case_eqb; intuition congruence. }
  split; [|split].
  - repeat constructor.
  - exact HV.
  - intros m t. by rewrite HV, HM.
Qed.

(** C6, as the code has it: for a block [B] that alone is selected, where the
    schema allows [modelElement], a name other than ['paragraph'], and allows
    ['paragraph'] too, and a command whose [value] is false: one execution
    leaves [B] with the name [modelElement] and [value] true; the selection
    is the same, and a second execution leaves [B] with the name
    ['paragraph'] and [value] false. *)
Theorem C6_toggle_twice (this : HeadingCommand) (options1 options2 : Options)
    (ed : Editor) (B : nat) :
  selectedBlocks ed = [B] ->
  checkCanBecomeHeading B (modelElement this) (schema (document ed)) = true ->
  schema (document ed) "paragraph" (createBefore B) = true ->
  value this = false ->
  modelElement this <> "paragraph" ->
  let r1 := _doExecute this options1 ed in
  let r2 := _doExecute (fst r1) options2 (snd r1) in
  nameOf (document (snd r1)) B = modelElement this /\
  value (fst r1) = true /\
  selectedBlocks (snd r1) = [B] /\
  nameOf (document (snd r2)) B = "paragraph" /\
  value (fst r2) = false.
Proof.
  intros Hsel Hchk Hpar Hv HT r1 r2.
  assert (Hel : forall (c : HeadingCommand) (ed0 : Editor),
             modelElement c = modelElement this ->
             selectedBlocks ed0 = [B] ->
             schema (document ed0) = schema (document ed) ->
             eligibleBlocks c (document ed0) = [B]).
  { intros c ed0 Hc Hs Hsch. unfold eligibleBlocks.
    unfold selectedBlocks in Hs. rewrite Hs, Hc, Hsch.
    by rewrite filter_cons_True. }
  destruct (getSelectedBlocks_lookup (document ed) (selection (document ed)) B)
    as [e He].
  { unfold selectedBlocks in Hsel. rewrite Hsel. apply list_elem_of_here. }
  destruct (_doExecute_effects this options1 ed) as (Hb1 & _ & _ & _ & Hsch1 & _).
  cbv zeta in Hb1, Hsch1. fold r1 in Hb1, Hsch1.
  pose proof (_doExecute_selectedBlocks this options1 ed) as Hsel1.
  fold r1 in Hsel1. rewrite Hsel in Hsel1.
  assert (Hen1 : paragraphEnabled (snd r1) = true).
  { unfold r1. rewrite _doExecute_paragraphEnabled.
    unfold paragraph_checkEnabled. by rewrite Hsel. }
  specialize (Hb1 B). rewrite (Hel this ed eq_refl Hsel eq_refl) in Hb1.
  rewrite decide_True, He, Hv in Hb1 by apply list_elem_of_here.
  cbn [fmap option_fmap option_map new_element] in Hb1.
  assert (Hm1 : modelElement (fst r1) = modelElement this) by reflexivity.
  assert (Hv1 : value (fst r1) = true).
  { change (fst r1) with (changesDone this (snd r1)).
    rewrite value_changesDone, Hsel1. unfold is_. rewrite Hb1.
    apply String.eqb_refl. }
  destruct (_doExecute_effects (fst r1) options2 (snd r1)) as (Hb2 & _).
  cbv zeta in Hb2. fold r2 in Hb2. specialize (Hb2 B).
  rewrite (Hel (fst r1) (snd r1) Hm1 Hsel1 Hsch1) in Hb2.
  rewrite decide_True, Hb1, Hv1, Hm1, Hen1 in Hb2 by apply list_elem_of_here.
  cbn [fmap option_fmap option_map new_element name set_name] in Hb2.
  rewrite String.eqb_refl in Hb2. cbn [andb] in Hb2.
  pose proof (_doExecute_selectedBlocks (fst r1) options2 (snd r1)) as Hsel2.
  fold r2 in Hsel2. rewrite Hsel1 in Hsel2.
  repeat split.
  - unfold nameOf. by rewrite Hb1.
  - exact Hv1.
  - exact Hsel1.
  - unfold nameOf. by rewrite Hb2.
  - change (fst r2) with (changesDone (fst r1) (snd r2)).
    rewrite value_changesDone, Hsel2. unfold is_. rewrite Hb2, Hm1.
    apply String.eqb_neq. cbn [name set_name]. congruence.
Qed.

(** C6 as stated fails for a block that already is of the target type: with
    one heading1 selected and the heading1 command in step with the document
    ([value] true), the first execution makes the block a paragraph and
    [value] false. It also fails for the target ['paragraph']: the second
    execution then leaves [value] true. And it fails where the schema allows
    the heading and no paragraph: the paragraph command is disabled, and the
    second execution leaves the block a heading1 and [value] true. *)
Lemma C6_counterexample :
  (let this := changesDone heading1_off ed_heading in
   let r1 := _doExecute this no_options ed_heading in
   selectedBlocks ed_heading = [0] /\
   checkCanBecomeHeading 0 (modelElement this) (schema (document ed_heading)) = true /\
   ~ (nameOf (document (snd r1)) 0 = modelElement this /\ value (fst r1) = true)) /\
  (let this := mkHeadingCommand "paragraph" false true in
   let r1 := _doExecute this no_options ed_heading in
   let r2 := _doExecute (fst r1) no_options (snd r1) in
   value this = false /\
   ~ value (fst r2) = false) /\
  (let r1 := _doExecute heading1_off no_options ed_heading2_no_paragraph in
   let r2 := _doExecute (fst r1) no_options (snd r1) in
   selectedBlocks ed_heading2_no_paragraph = [0] /\
   checkCanBecomeHeading 0 "heading1" (schema (document ed_heading2_no_paragraph))
   = true /\
   nameOf (document (snd r1)) 0 = "heading1" /\
   value (fst r1) = true /\
   ~ (nameOf (document (snd r2)) 0 = "paragraph" /\ value (fst r2) = false)).
Proof.
  split; [|split]; cbv zeta.
  - split; [reflexivity|]. split; [reflexivity|].
    intros [H _]. vm_compute in H. discriminate.
  - split; [reflexivity|]. intros H. vm_compute in H. discriminate.
  - split; [reflexivity|]. split; [reflexivity|]. split; [reflexivity|].
    split; [reflexivity|]. intros [H _]. vm_compute in H. discriminate.
Qed.

(** C6 at [ed_paragraph]: paragraph, heading1, paragraph. *)
Lemma C6_witness :
  let r1 := _doExecute heading1_off no_options ed_paragraph in
  let r2 := _doExecute (fst r1) no_options (snd r1) in
  nameOf (document (snd r1)) 0 = "heading1" /\
  value (fst r1) = true /\
  selectedBlocks (snd r1) = [0] /\
  nameOf (document (snd r2)) 0 = "paragraph" /\
  value (fst r2) = false.
Proof.
  refine (C6_toggle_twice heading1_off no_options no_options ed_paragraph 0
            eq_refl eq_refl eq_refl eq_refl _).
  discriminate.
Defined.

(** C7: whatever [value] is, an execution leaves every block that fails the
    schema check as it is: the block keeps its element, no operation added to
    the history is on it, and no paragraph command is run on it. The
    execution always yields a final state: nothing is raised. *)
Theorem C7_ineligible_block_unchanged (this : HeadingCommand) (options : Options)
    (ed : Editor) (i : nat) :
  checkCanBecomeHeading i (modelElement this) (schema (document ed)) = false ->
  let doc := document ed in
  let ed' := snd (_doExecute this options ed) in
  blocks (document ed') !! i = blocks doc !! i /\
  exists ops calls,
    history (document ed') = history doc ++ ops /\
    executed ed' = executed ed ++ calls /\
    Forall (fun op => op_block (snd op) <> i) ops /\
    Forall (fun c => forall b,
              c <> ("paragraph",
                    mkOptions (Some (mkSelection [createIn doc i])) b)) calls.
Proof.
  intros Hi doc ed'.
  destruct (_doExecute_effects this options ed) as (Hb & Hh & Hx & _).
  fold doc ed' in Hb, Hh, Hx.
  assert (Hni : i ∉ eligibleBlocks this doc).
  { rewrite elem_of_eligibleBlocks. intros [_ H]. unfold doc in H. congruence. }
  split.
  - rewrite Hb, decide_False by done. by destruct (blocks doc !! i).
  - eexists _, _. split; [exact Hh|]. split; [exact Hx|]. split.
    + eapply Forall_impl; [apply ops_of_batch|]. simpl.
      intros op [_ Hop] Heq. by rewrite Heq in Hop.
    + eapply Forall_impl; [apply calls_of_batch|]. simpl.
      intros c (j & Hj & ->) b Heq. unfold createIn in Heq.
      injection Heq as Hji _ _. subst j. done.
Qed.

(** C7 at [ed_guarded]: the refused heading2 stays as it is. *)
Lemma C7_witness :
  blocks (document (snd (_doExecute heading1_off no_options ed_guarded))) !! 1
  = Some (mkElement "heading2" 5).
Proof.
  exact (proj1 (C7_ineligible_block_unchanged heading1_off no_options ed_guarded 1
                  eq_refl)).
Defined.

(** C8: one execution works in one batch: [options.batch] when the caller
    gives one (no batch is created then), otherwise the one batch it creates.
    Every operation it adds to the history is in that batch, and every
    command it delegates to is the paragraph command, called with that same
    batch. *)
Theorem C8_single_batch (this : HeadingCommand) (options : Options) (ed : Editor) :
  let doc := document ed in
  let ed' := snd (_doExecute this options ed) in
  let doc' := document ed' in
  exists (batch : Batch) ops calls,
    batch = match opt_batch options with
            | Some b => b
            | None => batches doc
            end /\
    batches doc' = match opt_batch options with
                   | Some _ => batches doc
                   | None => S (batches doc)
                   end /\
    history doc' = history doc ++ ops /\
    executed ed' = executed ed ++ calls /\
    Forall (fun op => fst op = batch) ops /\
    Forall (fun c => fst c = "paragraph" /\ opt_batch (snd c) = Some batch) calls.
Proof.
  intros doc ed' doc'.
  destruct (_doExecute_effects this options ed) as (_ & Hh & Hx & _ & _ & Hn & _).
  fold doc ed' doc' in Hh, Hx, Hn.
  exists (batch_used options ed). eexists _, _.
  split; [reflexivity|]. split; [|split; [exact Hh|split; [exact Hx|split]]].
  - rewrite Hn. destruct (opt_batch options); lia.
  - eapply Forall_impl; [apply ops_of_batch|]. by intros op [? _].
  - eapply Forall_impl; [apply calls_of_batch|]. by intros c (j & _ & ->).
Qed.

(** C9: take a console in any state it can reach, and a call of [update] that
    gets past the comparison with [previousData]: it adds one to the counter
    and sets the flag. When the timer of that call fires (after the timers set
    before it, and no sooner than 500 ms after the call), the counter is the
    number of later such calls, and the flag is then cleared exactly when
    there was none. Every firing of a timer takes one from the counter and
    clears the flag exactly when the counter has reached zero. *)
Theorem C9_updated_flag_debounce (el : Console.DomElement)
    (before evs : list Console.Event) (w w2 : Console.World) (data : string) :
  Console.run before (Console.new_World el) = Some w ->
  Console.previousData (Console.console w) <> data ->
  Console.expiries evs = length (Console.timers w) ->
  Console.run (Console.Update data :: evs ++ [Console.Expire]) w = Some w2 ->
  let counter x := Console.consoleUpdates (Console.console x) in
  let flag x := Console.updated (Console.element (Console.console x)) in
  let w1 := Console.update data w in
  flag w1 = true /\
  counter w1 = (counter w + 1)%Z /\
  Console.clock w + 500 <= Console.clock w2 /\
  counter w2 = Z.of_nat (Console.effective data evs) /\
  (flag w2 = false <-> Console.effective data evs = 0) /\
  (forall wa wb,
     Console.step Console.Expire wa = Some wb ->
     counter wb = (counter wa - 1)%Z /\
     flag wb = if (counter wb =? 0)%Z then false else flag wa).
Proof.
  intros Hreach Hdata Hexp Hrun counter flag w1.
  assert (Hw : Console.consistent w).
  { eapply ConsoleFacts.run_consistent; [apply ConsoleFacts.new_World_consistent|exact Hreach]. }
  pose proof (ConsoleFacts.update_effective data w Hdata) as Hw1. fold w1 in Hw1.
  assert (Hc1 : Console.consistent w1).
  { eapply (ConsoleFacts.step_consistent (Console.Update data)); [exact Hw|reflexivity]. }
  assert (Hstep : forall wa wb,
             Console.step Console.Expire wa = Some wb ->
             counter wb = (counter wa - 1)%Z /\
             flag wb = if (counter wb =? 0)%Z then false else flag wa).
  { intros wa wb Hs. cbn [Console.step] in Hs.
    destruct (Console.timers wa) as [|due rest]; [discriminate|].
    destruct (Nat.leb due (Console.clock wa)); [|discriminate].
    injection Hs as <-. subst counter flag. cbn.
    split; [reflexivity|]. by destruct (Z.eqb _ 0). }
  change (Console.run (Console.Update data :: evs ++ [Console.Expire]) w)
    with (Console.run (evs ++ [Console.Expire]) w1) in Hrun.
  rewrite ConsoleFacts.run_app in Hrun.
  destruct (Console.run evs w1) as [w'|] eqn:Hevs; [|discriminate].
  pose proof (ConsoleFacts.run_consistent _ _ _ Hc1 Hevs) as [Hcnt' Hflag'].
  destruct (ConsoleFacts.run_timers _ _ _ Hevs) as (fired & added & Ht & Hf & Ha & Hclk).
  rewrite Hw1 in Ht, Ha, Hclk.
  cbn [Console.timers Console.console Console.previousData Console.clock] in Ht, Ha, Hclk.
  rewrite <- app_assoc in Ht.
  apply app_inj_1 in Ht as [_ Ht]; [|congruence].
  cbn [app] in Ht.
  cbn [Console.run] in Hrun.
  destruct (Console.step Console.Expire w') as [w2'|] eqn:Hlast; [|discriminate].
  injection Hrun as ->.
  destruct (Hstep _ _ Hlast) as [Hcnt2 Hflag2].
  cbn [Console.step] in Hlast. rewrite <- Ht in Hlast.
  destruct (Nat.leb (Console.clock w + Console.delay) (Console.clock w')) eqn:Hdue;
    [|discriminate].
  apply Nat.leb_le in Hdue. injection Hlast as <-.
  rewrite <- Ht in Hcnt', Hflag'. cbn [length] in Hcnt'.
  assert (Hcount : counter w' = (Z.of_nat (Console.effective data evs) + 1)%Z).
  { subst counter. cbn beta. rewrite Hcnt', <- Ha. lia. }
  split; [by rewrite Hw1|]. split; [by rewrite Hw1|].
  split; [exact Hdue|]. split; [rewrite Hcnt2, Hcount; lia|].
  split; [|exact Hstep].
  rewrite Hflag2, Hcnt2, Hcount.
  destruct (Z.eqb_spec (Z.of_nat (Console.effective data evs) + 1 - 1) 0) as [Hz|Hz].
  - split; [lia|done].
  - subst flag. cbn beta. rewrite Hflag' by done. split; [discriminate|lia].
Qed.

(** C9 on a run: ["a"] is written at 0 ms and ["b"] at 100 ms; the timer of
    ["a"] fires at 500 ms, the timer of ["b"] at 600 ms, with no call in
    between: the flag is cleared then and the counter is back to zero. *)
Lemma C9_witness :
  Console.run
    [Console.Update "a"; Console.Wait 100; Console.Update "b"; Console.Wait 400;
     Console.Expire; Console.Wait 100; Console.Expire]
    (Console.new_World (Console.mkDomElement false ""))
  = Some sample_world_end /\
  500 <= Console.clock sample_world_end /\
  Console.consoleUpdates (Console.console sample_world_end) = 0%Z /\
  Console.updated (Console.element (Console.console sample_world_end)) = false.
Proof.
  assert (Hb : Console.previousData (Console.console sample_world) <> "b")
    by discriminate.
  destruct (C9_updated_flag_debounce (Console.mkDomElement false "")
              [Console.Update "a"; Console.Wait 100]
              [Console.Wait 400; Console.Expire; Console.Wait 100]
              sample_world sample_world_end "b" eq_refl Hb eq_refl eq_refl)
    as (_ & _ & Hclock & Hcounter & Hflag & _).
  split; [reflexivity|]. split; [|split].
  - apply Nat.le_trans with (Console.clock sample_world + 500);
      [apply Nat.le_add_l|exact Hclock].
  - exact Hcounter.
  - apply Hflag. reflexivity.
Defined.

(** C10: what [_checkEnabled] answers, and the [isEnabled] the listener sets,
    is what the schema check answers for the first selected block, whatever
    the blocks selected after it are and whatever the schema says of them. So
    when the first block passes the check the command is enabled, and the
    later blocks that fail it are only left out of the blocks an execution
    works on. *)
Theorem C10_enabled_by_first_block (this : HeadingCommand) (ed : Editor)
    (b : nat) (rest : list nat) :
  selectedBlocks ed = b :: rest ->
  let permitted i :=
    checkCanBecomeHeading i (modelElement this) (schema (document ed)) in
  _checkEnabled this ed = permitted b /\
  isEnabled (changesDone this ed) = permitted b /\
  eligibleBlocks this (document ed)
  = filter (fun i => permitted i = true) (b :: rest) /\
  (permitted b = true ->
   _checkEnabled this ed = true /\
   isEnabled (changesDone this ed) = true /\
   eligibleBlocks this (document ed)
   = b :: filter (fun i => permitted i = true) rest).
Proof.
  intros Hsel permitted.
  assert (He : _checkEnabled this ed = permitted b).
  { unfold _checkEnabled. by rewrite Hsel. }
  assert (Hl : eligibleBlocks this (document ed)
               = filter (fun i => permitted i = true) (b :: rest)).
  { unfold eligibleBlocks. unfold selectedBlocks in Hsel. by rewrite Hsel. }
  split; [exact He|]. split; [exact He|]. split; [exact Hl|].
  intros Hb. rewrite Hl, <- Hb. split; [exact He|]. split; [exact He|].
  by rewrite filter_cons_True.
Qed.

(** C10 at [ed_guarded] and [ed_tail]: with the second block refused the
    command is enabled by the first; with the first block refused it is
    disabled, the block after it allowed or not. *)
Lemma C10_witness :
  (checkCanBecomeHeading 1 "heading1" (schema (document ed_guarded)) = false /\
   _checkEnabled heading1_off ed_guarded = true) /\
  (checkCanBecomeHeading 2 "heading1" (schema (document ed_tail)) = true /\
   _checkEnabled heading1_off ed_tail = false).
Proof.
  split; (split; [reflexivity|]).
  - exact (proj1 (C10_enabled_by_first_block heading1_off ed_guarded 0 [1; 2]
                    eq_refl)).
  - exact (proj1 (C10_enabled_by_first_block heading1_off ed_tail 1 [2] eq_refl)).
Defined.

(** * Further properties of the heading command *)

Lemma new_element_maxOffset (T : string) (shouldRemove enabled : bool)
    (e : Element) :
  maxOffset (new_element T shouldRemove enabled e) = maxOffset e.
Proof.
  unfold new_element.
  destruct shouldRemove; [destruct (String.eqb (name e) T && enabled)|];
    reflexivity.
Qed.

Lemma eligibleBlocks_selected (this : HeadingCommand) (doc : Document) (i : nat) :
  i ∈ eligibleBlocks this doc -> i ∈ getSelectedBlocks doc (selection doc).
Proof. intros H. by apply elem_of_eligibleBlocks in H as [? _]. Qed.

(** The eligible blocks are the same after an execution, for a command of the
    same [modelElement]. *)
Lemma _doExecute_eligibleBlocks (this that : HeadingCommand) (options : Options)
    (ed : Editor) :
  modelElement that = modelElement this ->
  eligibleBlocks that (document (snd (_doExecute this options ed)))
  = eligibleBlocks this (document ed).
Proof.
  intros Hm.
  destruct (_doExecute_effects this options ed) as (_ & _ & _ & Hs & Hsch & _ & Hl).
  cbv zeta in Hs, Hsch, Hl. unfold eligibleBlocks, getSelectedBlocks.
  by rewrite Hs, Hsch, Hl, Hm.
Qed.

(** X1: an execution changes names only: it adds and removes no block, keeps
    the size of the content of every block, the selection and the schema,
    only appends to the history and to the calls made, and leaves every block
    that is not selected as it is. *)
Theorem X1_execute_changes_names_only (this : HeadingCommand) (options : Options)
    (ed : Editor) :
  let doc := document ed in
  let ed' := snd (_doExecute this options ed) in
  let doc' := document ed' in
  length (blocks doc') = length (blocks doc) /\
  (forall i, maxOffset <$> blocks doc' !! i = maxOffset <$> blocks doc !! i) /\
  selection doc' = selection doc /\
  schema doc' = schema doc /\
  (exists ops, history doc' = history doc ++ ops) /\
  (exists calls, executed ed' = executed ed ++ calls) /\
  (forall i, i ∉ selectedBlocks ed -> blocks doc' !! i = blocks doc !! i).
Proof.
  intros doc ed' doc'.
  destruct (_doExecute_effects this options ed)
    as (Hb & Hh & Hx & Hs & Hsch & _ & Hl).
  fold doc ed' doc' in Hb, Hh, Hx, Hs, Hsch, Hl.
  split; [exact Hl|]. split; [|split; [exact Hs|split; [exact Hsch|]]].
  - intros i. rewrite Hb. destruct (blocks doc !! i) as [e|]; [|done].
    case_decide; simpl; [by rewrite new_element_maxOffset|done].
  - split; [by eexists|]. split; [by eexists|].
    intros i Hi. rewrite Hb, decide_False; [by destruct (blocks doc !! i)|].
    intros Hin. apply Hi. by apply eligibleBlocks_selected in Hin.
Qed.

(** X2: an execution does not change whether the command is enabled: the
    answer of [_checkEnabled] after it, and the [isEnabled] the listener sets,
    are the answer of [_checkEnabled] before it. *)
Theorem X2_execute_keeps_enablement (this : HeadingCommand) (options : Options)
    (ed : Editor) :
  let r := _doExecute this options ed in
  _checkEnabled (fst r) (snd r) = _checkEnabled this ed /\
  isEnabled (fst r) = _checkEnabled this ed.
Proof.
  intros r.
  assert (H : forall c, modelElement c = modelElement this ->
                        _checkEnabled c (snd r) = _checkEnabled this ed).
  { intros c Hc. unfold _checkEnabled, r.
    rewrite (_doExecute_selectedBlocks this options ed), Hc.
    destruct (_doExecute_effects this options ed) as (_ & _ & _ & _ & Hsch & _).
    cbv zeta in Hsch. by rewrite Hsch. }
  split; [by apply H|].
  change (isEnabled (fst r)) with (_checkEnabled (refreshValue this (snd r)) (snd r)).
  by apply H.
Qed.

(** X3: when the first selected block passes the schema check and
    [modelElement] is not ['paragraph'], and, in case [value] is true, the
    paragraph command is enabled and the schema allows a paragraph in the
    place of that block, an execution flips [value], whether or not [value]
    was in step with the document. *)
Theorem X3_execute_flips_value (this : HeadingCommand) (options : Options)
    (ed : Editor) (b : nat) (rest : list nat) :
  selectedBlocks ed = b :: rest ->
  checkCanBecomeHeading b (modelElement this) (schema (document ed)) = true ->
  modelElement this <> "paragraph" ->
  (value this = true ->
   paragraphEnabled ed = true /\
   schema (document ed) "paragraph" (createBefore b) = true) ->
  value (fst (_doExecute this options ed)) = negb (value this).
Proof.
  intros Hsel Hchk HT Hen. set (r := _doExecute this options ed).
  change (fst r) with (changesDone this (snd r)).
  pose proof (_doExecute_selectedBlocks this options ed) as Hsel'.
  fold r in Hsel'. rewrite value_changesDone, Hsel', Hsel.
  assert (Hin : b ∈ eligibleBlocks this (document ed)).
  { apply elem_of_eligibleBlocks. split; [|done].
    unfold selectedBlocks in Hsel. rewrite Hsel. apply list_elem_of_here. }
  destruct (getSelectedBlocks_lookup _ _ _ (eligibleBlocks_selected _ _ _ Hin))
    as [e He].
  destruct (_doExecute_effects this options ed) as (Hb & _).
  cbv zeta in Hb. fold r in Hb. specialize (Hb b).
  rewrite decide_True, He in Hb by done. unfold is_. rewrite Hb.
  cbn [fmap option_fmap option_map]. unfold new_element.
  destruct (value this).
  - rewrite (proj1 (Hen eq_refl)), andb_true_r.
    destruct (String.eqb (name e) (modelElement this)) eqn:Hn; [|exact Hn].
    cbn [name set_name negb]. apply String.eqb_neq. congruence.
  - cbn [name set_name negb]. apply String.eqb_refl.
Qed.

(** X3 at [ed_all]: [value] goes from true to false. *)
Lemma X3_witness : value (fst (_doExecute heading1_on no_options ed_all)) = false.
Proof.
  refine (X3_execute_flips_value heading1_on no_options ed_all 0 [1; 2]
            eq_refl eq_refl _ (fun _ => conj eq_refl eq_refl)).
  discriminate.
Defined.

(** X4: when [_checkEnabled] answers false (nothing is selected, or the first
    selected block fails the schema check), an execution leaves [value] what
    the listener alone would make it, and the first selected block as it is. *)
Theorem X4_disabled_execute_keeps_value (this : HeadingCommand) (options : Options)
    (ed : Editor) :
  _checkEnabled this ed = false ->
  let r := _doExecute this options ed in
  value (fst r) = value (changesDone this ed) /\
  (forall b, first (selectedBlocks ed) = Some b ->
             blocks (document (snd r)) !! b = blocks (document ed) !! b).
Proof.
  intros Hen r.
  assert (Hfirst : forall b, first (selectedBlocks ed) = Some b ->
             blocks (document (snd r)) !! b = blocks (document ed) !! b).
  { intros b Hb. unfold _checkEnabled in Hen. rewrite Hb in Hen.
    destruct (_doExecute_effects this options ed) as (Hbl & _).
    cbv zeta in Hbl. fold r in Hbl. rewrite Hbl, decide_False.
    - by destruct (blocks (document ed) !! b).
    - rewrite elem_of_eligibleBlocks. intros [_ H]. congruence. }
  split; [|exact Hfirst].
  change (fst r) with (changesDone this (snd r)).
  pose proof (_doExecute_selectedBlocks this options ed) as Hsel'.
  fold r in Hsel'. rewrite !value_changesDone, Hsel'.
  destruct (selectedBlocks ed) as [|b rest] eqn:Hsel; [done|].
  unfold is_. by rewrite (Hfirst b eq_refl).
Qed.

(** X4 at [ed_refused]: the heading2 is refused, [value] stays false. *)
Lemma X4_witness :
  value (fst (_doExecute heading1_off no_options ed_refused)) = false.
Proof.
  exact (proj1 (X4_disabled_execute_keeps_value heading1_off no_options ed_refused
                  eq_refl)).
Defined.

(** An eligible block after an execution. *)
Lemma _doExecute_eligible_block (this : HeadingCommand) (options : Options)
    (ed : Editor) (i : nat) (e : Element) :
  i ∈ eligibleBlocks this (document ed) ->
  blocks (document ed) !! i = Some e ->
  blocks (document (snd (_doExecute this options ed))) !! i
  = Some (new_element (modelElement this) (value this) (paragraphEnabled ed) e).
Proof.
  intros Hi He. destruct (_doExecute_effects this options ed) as (Hb & _).
  cbv zeta in Hb. by rewrite Hb, decide_True, He.
Qed.

(** A block that is not eligible after an execution. *)
Lemma _doExecute_other_block (this : HeadingCommand) (options : Options)
    (ed : Editor) (i : nat) :
  i ∉ eligibleBlocks this (document ed) ->
  blocks (document (snd (_doExecute this options ed))) !! i
  = blocks (document ed) !! i.
Proof.
  intros Hi. destruct (_doExecute_effects this options ed) as (Hb & _).
  cbv zeta in Hb. rewrite Hb, decide_False by done.
  by destruct (blocks (document ed) !! i).
Qed.

Lemma ops_of_apply_done (T : string) (en : bool) (b : Batch) (doc : Document)
    (l : list nat) :
  (forall i, i ∈ l -> is_ doc i T = true) ->
  concat (map (ops_of T false en b doc) l) = [].
Proof.
  induction l as [|x l IH]; intros Hl; [reflexivity|].
  cbn [map concat]. rewrite IH by (intros; apply Hl; by apply list_elem_of_further).
  rewrite app_nil_r. specialize (Hl x (list_elem_of_here _ _)).
  unfold is_ in Hl. unfold ops_of.
  destruct (blocks doc !! x) as [e|]; [|done]. by rewrite Hl.
Qed.

(** X5: when no selected block passes the schema check (so also when nothing
    is selected), an execution changes no block, records no operation and
    calls no command; it still creates a batch when the caller gave none. *)
Theorem X5_nothing_eligible (this : HeadingCommand) (options : Options)
    (ed : Editor) :
  eligibleBlocks this (document ed) = [] ->
  let doc := document ed in
  let ed' := snd (_doExecute this options ed) in
  let doc' := document ed' in
  blocks doc' = blocks doc /\
  history doc' = history doc /\
  executed ed' = executed ed /\
  batches doc' = match opt_batch options with
                 | Some _ => batches doc
                 | None => S (batches doc)
                 end.
Proof.
  intros Hnone doc ed' doc'.
  destruct (_doExecute_effects this options ed) as (Hb & Hh & Hx & _ & _ & Hn & _).
  fold doc ed' doc' in Hb, Hh, Hx, Hn. fold doc in Hnone.
  rewrite Hnone in Hb, Hh, Hx.
  cbn [map concat] in Hh, Hx. rewrite app_nil_r in Hh, Hx.
  split; [|split; [exact Hh|split; [exact Hx|]]].
  - apply list_eq. intros i. rewrite Hb, decide_False by apply not_elem_of_nil.
    by destruct (blocks doc !! i).
  - rewrite Hn. destruct (opt_batch options); lia.
Qed.

(** X5 with nothing selected: the blocks stay, one batch is created. *)
Lemma X5_witness :
  blocks (document (snd (_doExecute heading1_off no_options ed_unselected)))
  = sample_blocks /\
  batches (document (snd (_doExecute heading1_off no_options ed_unselected))) = 1.
Proof.
  destruct (X5_nothing_eligible heading1_off no_options ed_unselected eq_refl)
    as (Hb & _ & _ & Hn).
  split; [exact Hb|exact Hn].
Defined.

(** X6: with [value] false, the first selected block passing the schema
    check for [modelElement], which is not ['paragraph'], and the schema
    allowing a paragraph in the place of every eligible block, two executions
    in a row leave every eligible block a ['paragraph'], whatever it was
    before (a heading of another level too), and every other block as it was;
    [value] is true after the first and false after the second. *)
Theorem X6_two_executions_leave_paragraphs (this : HeadingCommand)
    (options1 options2 : Options) (ed : Editor) (b : nat) (rest : list nat) :
  value this = false ->
  selectedBlocks ed = b :: rest ->
  checkCanBecomeHeading b (modelElement this) (schema (document ed)) = true ->
  (forall i, i ∈ eligibleBlocks this (document ed) ->
             schema (document ed) "paragraph" (createBefore i) = true) ->
  modelElement this <> "paragraph" ->
  let r1 := _doExecute this options1 ed in
  let r2 := _doExecute (fst r1) options2 (snd r1) in
  value (fst r1) = true /\
  value (fst r2) = false /\
  (forall i e,
     i ∈ eligibleBlocks this (document ed) ->
     blocks (document ed) !! i = Some e ->
     blocks (document (snd r1)) !! i = Some (set_name (modelElement this) e) /\
     blocks (document (snd r2)) !! i = Some (set_name "paragraph" e)) /\
  (forall i,
     i ∉ eligibleBlocks this (document ed) ->
     blocks (document (snd r2)) !! i = blocks (document ed) !! i).
Proof.
  intros Hv Hsel Hchk Hpar HT r1 r2.
  assert (Hm1 : modelElement (fst r1) = modelElement this) by reflexivity.
  pose proof (_doExecute_eligibleBlocks this (fst r1) options1 ed Hm1) as Hel1.
  fold r1 in Hel1.
  pose proof (_doExecute_selectedBlocks this options1 ed) as Hsel1.
  fold r1 in Hsel1. rewrite Hsel in Hsel1.
  pose proof (_doExecute_selectedBlocks (fst r1) options2 (snd r1)) as Hsel2.
  fold r2 in Hsel2. rewrite Hsel1 in Hsel2.
  assert (Hin : b ∈ eligibleBlocks this (document ed)).
  { apply elem_of_eligibleBlocks. split; [|done].
    unfold selectedBlocks in Hsel. rewrite Hsel. apply list_elem_of_here. }
  assert (Hen1 : paragraphEnabled (snd r1) = true).
  { unfold r1. rewrite _doExecute_paragraphEnabled.
    unfold paragraph_checkEnabled. rewrite Hsel. by apply Hpar. }
  assert (Hone : forall i e,
             i ∈ eligibleBlocks this (document ed) ->
             blocks (document ed) !! i = Some e ->
             blocks (document (snd r1)) !! i = Some (set_name (modelElement this) e)).
  { intros i e Hi He.
    pose proof (_doExecute_eligible_block this options1 ed i e Hi He) as H.
    fold r1 in H. by rewrite Hv in H. }
  assert (Hv1 : value (fst r1) = true).
  { destruct (getSelectedBlocks_lookup _ _ _ (eligibleBlocks_selected _ _ _ Hin))
      as [e He].
    change (fst r1) with (changesDone this (snd r1)).
    rewrite value_changesDone, Hsel1. unfold is_. rewrite (Hone b e Hin He).
    apply String.eqb_refl. }
  assert (Htwo : forall i e,
             i ∈ eligibleBlocks this (document ed) ->
             blocks (document ed) !! i = Some e ->
             blocks (document (snd r2)) !! i = Some (set_name "paragraph" e)).
  { intros i e Hi He.
    assert (Hi1 : i ∈ eligibleBlocks (fst r1) (document (snd r1))) by by rewrite Hel1.
    pose proof (_doExecute_eligible_block (fst r1) options2 (snd r1) i _ Hi1
                  (Hone i e Hi He)) as H.
    fold r2 in H. rewrite H, Hv1, Hm1, Hen1. unfold new_element.
    cbn [name set_name]. by rewrite String.eqb_refl. }
  split; [exact Hv1|]. split; [|split].
  - destruct (getSelectedBlocks_lookup _ _ _ (eligibleBlocks_selected _ _ _ Hin))
      as [e He].
    change (fst r2) with (changesDone (fst r1) (snd r2)).
    rewrite value_changesDone, Hsel2. unfold is_. rewrite (Htwo b e Hin He), Hm1.
    cbn [name set_name]. apply String.eqb_neq. congruence.
  - intros i e Hi He. split; [by apply Hone|by apply Htwo].
  - intros i Hi.
    pose proof (_doExecute_other_block (fst r1) options2 (snd r1) i) as H2.
    fold r2 in H2. rewrite H2 by by rewrite Hel1.
    by apply _doExecute_other_block.
Qed.

(** X6 at [ed_all]: the heading2 ends as a paragraph. *)
Lemma X6_witness :
  blocks (document (snd (_doExecute
                           (fst (_doExecute heading1_off no_options ed_all))
                           no_options
                           (snd (_doExecute heading1_off no_options ed_all))))) !! 1
  = Some (mkElement "paragraph" 5).
Proof.
  assert (HT : modelElement heading1_off <> "paragraph") by discriminate.
  destruct (X6_two_executions_leave_paragraphs heading1_off no_options no_options
              ed_all 0 [1; 2] eq_refl eq_refl eq_refl (fun _ _ => eq_refl) HT)
    as (_ & _ & H & _).
  refine (proj2 (H 1 (mkElement "heading2" 5) _ eq_refl)). in_selection.
Defined.

(** X7: with [value] false, when an execution leaves [value] false (the first
    selected block is not turned into a [modelElement]), the next execution
    changes no block, records no operation and calls no command. *)
Theorem X7_repeated_apply_changes_nothing (this : HeadingCommand)
    (options1 options2 : Options) (ed : Editor) :
  value this = false ->
  let r1 := _doExecute this options1 ed in
  let r2 := _doExecute (fst r1) options2 (snd r1) in
  value (fst r1) = false ->
  blocks (document (snd r2)) = blocks (document (snd r1)) /\
  history (document (snd r2)) = history (document (snd r1)) /\
  executed (snd r2) = executed (snd r1).
Proof.
  intros Hv r1 r2 Hv1.
  assert (Hm1 : modelElement (fst r1) = modelElement this) by reflexivity.
  pose proof (_doExecute_eligibleBlocks this (fst r1) options1 ed Hm1) as Hel1.
  fold r1 in Hel1.
  assert (Hdone : forall i,
             i ∈ eligibleBlocks this (document ed) ->
             exists e, blocks (document (snd r1)) !! i
                       = Some (set_name (modelElement this) e)).
  { intros i Hi.
    destruct (getSelectedBlocks_lookup _ _ _ (eligibleBlocks_selected _ _ _ Hi))
      as [e He].
    exists e. pose proof (_doExecute_eligible_block this options1 ed i e Hi He) as H.
    fold r1 in H. by rewrite Hv in H. }
  destruct (_doExecute_effects (fst r1) options2 (snd r1)) as (Hb & Hh & Hx & _).
  cbv zeta in Hb, Hh, Hx. fold r2 in Hb, Hh, Hx.
  rewrite Hel1, Hv1, Hm1 in Hb, Hh, Hx.
  split; [|split].
  - apply list_eq. intros i. rewrite Hb.
    destruct (decide (i ∈ eligibleBlocks this (document ed))) as [Hi|Hi].
    + destruct (Hdone i Hi) as [e ->]. reflexivity.
    + by destruct (blocks (document (snd r1)) !! i).
  - rewrite Hh, ops_of_apply_done; [by rewrite app_nil_r|].
    intros i Hi. destruct (Hdone i Hi) as [e He]. unfold is_. rewrite He.
    apply String.eqb_refl.
  - by rewrite Hx, calls_of_apply, app_nil_r.
Qed.

(** X7 at [ed_tail]: the paragraph became a heading1 at the first execution,
    the second one records nothing more. *)
Lemma X7_witness :
  history (document (snd (_doExecute
                            (fst (_doExecute heading1_off no_options ed_tail))
                            no_options
                            (snd (_doExecute heading1_off no_options ed_tail)))))
  = [(0, RenameOperation 2 "paragraph" "heading1")].
Proof.
  exact (proj1 (proj2 (X7_repeated_apply_changes_nothing heading1_off no_options
                         no_options ed_tail eq_refl eq_refl))).
Defined.

(** * Further properties of FormatEngine *)

Lemma convert_app (cs cs' : list FormatEngine.Converter) (n : string) :
  FormatEngine.convert (cs ++ cs') n
  = match FormatEngine.convert cs n with
    | Some t => Some t
    | None => FormatEngine.convert cs' n
    end.
Proof.
  induction cs as [|c cs IH]; [reflexivity|]. cbn [app FormatEngine.convert].
  by destruct (String.eqb (FormatEngine.fromElement c) n).
Qed.

Lemma hasItem_after (n m base : string) (items : list (string * string))
    (v w : list FormatEngine.Converter) :
  FormatEngine.hasItem n (FormatEngine.mkEditor (items ++ [(m, base)]) v w)
  = FormatEngine.hasItem n (FormatEngine.mkEditor items v w) || String.eqb m n.
Proof.
  unfold FormatEngine.hasItem. cbn [FormatEngine.schemaItems].
  rewrite existsb_app. cbn [existsb fst]. by rewrite orb_false_r.
Qed.

(** The three items [init] registers and the converters it builds. *)
Definition heading_items : list (string * string) :=
  [("heading1", "$block"); ("heading2", "$block"); ("heading3", "$block")].

Definition heading_to_view : list FormatEngine.Converter :=
  [FormatEngine.mkConverter "heading1" "h2"; FormatEngine.mkConverter "heading2" "h3";
   FormatEngine.mkConverter "heading3" "h4"].

Definition heading_to_model : list FormatEngine.Converter :=
  [FormatEngine.mkConverter "h2" "heading1"; FormatEngine.mkConverter "h3" "heading2";
   FormatEngine.mkConverter "h4" "heading3"].

(** [init] in terms of the items the schema has. *)
Lemma init_cases (ed : FormatEngine.Editor) :
  let items := FormatEngine.schemaItems ed in
  let v := FormatEngine.modelToView ed in
  let w := FormatEngine.viewToModel ed in
  FormatEngine.init ed
  = if FormatEngine.hasItem "heading1" ed then FormatEngine.Raised ed
    else if FormatEngine.hasItem "heading2" ed
    then FormatEngine.Raised
           (FormatEngine.mkEditor (items ++ [("heading1", "$block")]) v w)
    else if FormatEngine.hasItem "heading3" ed
    then FormatEngine.Raised
           (FormatEngine.mkEditor
              (items ++ [("heading1", "$block"); ("heading2", "$block")]) v w)
    else FormatEngine.Done
           (FormatEngine.mkEditor (items ++ heading_items)
              (v ++ heading_to_view) (w ++ heading_to_model)).
Proof.
  intros items v w. destruct ed as [items' v' w']. subst items v w.
  cbn [FormatEngine.schemaItems FormatEngine.modelToView FormatEngine.viewToModel].
  unfold FormatEngine.init, FormatEngine.registerItem.
  destruct (FormatEngine.hasItem "heading1" _) eqn:H1; [reflexivity|].
  cbn [FormatEngine.andThen FormatEngine.schemaItems FormatEngine.modelToView
       FormatEngine.viewToModel].
  rewrite hasItem_after. cbn [String.eqb Ascii.eqb Bool.eqb]. rewrite orb_false_r.
  destruct (FormatEngine.hasItem "heading2" _) eqn:H2; [reflexivity|].
  cbn [FormatEngine.andThen FormatEngine.schemaItems FormatEngine.modelToView
       FormatEngine.viewToModel].
  rewrite !hasItem_after. cbn [String.eqb Ascii.eqb Bool.eqb]. rewrite !orb_false_r.
  destruct (FormatEngine.hasItem "heading3" _) eqn:H3.
  - by rewrite <- app_assoc.
  - cbn [FormatEngine.andThen]. unfold FormatEngine.BuildModelConverterFor,
      FormatEngine.BuildViewConverterFor, heading_items, heading_to_view,
      heading_to_model.
    cbn [FormatEngine.schemaItems FormatEngine.modelToView FormatEngine.viewToModel].
    by rewrite <- !app_assoc.
Qed.

(** X8: [init] raises exactly when heading1, heading2 or heading3 is a schema
    item already. When it raises no converter has been built, and of the
    three items only those before the one that was there have been added.
    When it runs to its end it has added the three items and the six
    converters after what the editor had, and an [init] after that raises at
    once, changing nothing. *)
Theorem X8_init_raises_on_existing_item (ed : FormatEngine.Editor) :
  let clash :=
    FormatEngine.hasItem "heading1" ed || FormatEngine.hasItem "heading2" ed
    || FormatEngine.hasItem "heading3" ed in
  match FormatEngine.init ed with
  | FormatEngine.Done ed' =>
      clash = false /\
      FormatEngine.schemaItems ed' = FormatEngine.schemaItems ed ++ heading_items /\
      FormatEngine.modelToView ed' = FormatEngine.modelToView ed ++ heading_to_view /\
      FormatEngine.viewToModel ed' = FormatEngine.viewToModel ed ++ heading_to_model /\
      FormatEngine.init ed' = FormatEngine.Raised ed'
  | FormatEngine.Raised ed' =>
      clash = true /\
      FormatEngine.modelToView ed' = FormatEngine.modelToView ed /\
      FormatEngine.viewToModel ed' = FormatEngine.viewToModel ed /\
      exists n,
        n < 3 /\
        FormatEngine.schemaItems ed'
        = FormatEngine.schemaItems ed ++ take n heading_items
  end.
Proof.
  intros clash. subst clash. rewrite init_cases.
  destruct (FormatEngine.hasItem "heading1" ed) eqn:H1.
  { split; [reflexivity|]. split; [reflexivity|]. split; [reflexivity|].
    exists 0. split; [lia|]. by rewrite app_nil_r. }
  destruct (FormatEngine.hasItem "heading2" ed) eqn:H2.
  { split; [reflexivity|]. split; [reflexivity|]. split; [reflexivity|].
    exists 1. split; [lia|reflexivity]. }
  destruct (FormatEngine.hasItem "heading3" ed) eqn:H3.
  { split; [reflexivity|]. split; [reflexivity|]. split; [reflexivity|].
    exists 2. split; [lia|reflexivity]. }
  split; [reflexivity|]. split; [reflexivity|]. split; [reflexivity|].
  split; [reflexivity|].
  rewrite init_cases.
  cbn [FormatEngine.schemaItems FormatEngine.modelToView FormatEngine.viewToModel].
  replace (FormatEngine.hasItem "heading1" _) with true; [reflexivity|].
  unfold FormatEngine.hasItem. cbn [FormatEngine.schemaItems].
  rewrite existsb_app. cbn. by rewrite orb_true_r.
Qed.

(** An editor that already converts paragraphs. *)
Definition ed_with_paragraph : FormatEngine.Editor :=
  FormatEngine.mkEditor [("paragraph", "$block")]
    [FormatEngine.mkConverter "paragraph" "p"]
    [FormatEngine.mkConverter "p" "paragraph"].

(** X9: when [init] runs to its end in an editor that so far converts none of
    heading1, heading2, heading3 to the view and none of h2, h3, h4 to the
    model, each of the three pairs goes there and back afterwards, whatever
    else the editor converts. *)
Theorem X9_round_trip_in_any_editor (ed ed' : FormatEngine.Editor) :
  FormatEngine.init ed = FormatEngine.Done ed' ->
  Forall (fun p =>
            FormatEngine.convert (FormatEngine.modelToView ed) (fst p) = None /\
            FormatEngine.convert (FormatEngine.viewToModel ed) (snd p) = None)
         FormatEngine.declared ->
  let toView := FormatEngine.convert (FormatEngine.modelToView ed') in
  let toModel := FormatEngine.convert (FormatEngine.viewToModel ed') in
  Forall (fun p => toView (fst p) = Some (snd p) /\ toModel (snd p) = Some (fst p))
         FormatEngine.declared.
Proof.
  intros Hinit Hfree toView toModel. subst toView toModel.
  rewrite init_cases in Hinit.
  destruct (FormatEngine.hasItem "heading1" ed); [discriminate|].
  destruct (FormatEngine.hasItem "heading2" ed); [discriminate|].
  destruct (FormatEngine.hasItem "heading3" ed); [discriminate|].
  injection Hinit as <-.
  cbn [FormatEngine.modelToView FormatEngine.viewToModel].
  rewrite Forall_forall in Hfree. rewrite Forall_forall. intros p Hp.
  destruct (Hfree p Hp) as [H1 H2]. rewrite !convert_app, H1, H2.
  unfold FormatEngine.declared in Hp. rewrite !elem_of_cons, elem_of_nil in Hp.
  destruct Hp as [->|[->|[->|[]]]]; split; reflexivity.
Qed.

(** X9 at an editor that converts paragraphs. *)
Lemma X9_witness :
  exists ed',
    FormatEngine.init ed_with_paragraph = FormatEngine.Done ed' /\
    FormatEngine.convert (FormatEngine.modelToView ed') "heading2" = Some "h3" /\
    FormatEngine.convert (FormatEngine.viewToModel ed') "h3" = Some "heading2".
Proof.
  eexists. split; [vm_compute; reflexivity|].
  assert (Hfree : Forall (fun p =>
            FormatEngine.convert (FormatEngine.modelToView ed_with_paragraph) (fst p)
            = None /\
            FormatEngine.convert (FormatEngine.viewToModel ed_with_paragraph) (snd p)
            = None) FormatEngine.declared) by (repeat constructor).
  pose proof (X9_round_trip_in_any_editor ed_with_paragraph _ eq_refl Hfree) as H.
  cbv zeta in H. rewrite Forall_forall in H.
  apply (H ("heading2", "h3")). unfold FormatEngine.declared.
  apply list_elem_of_further, list_elem_of_here.
Defined.

(** * Further properties of the console *)

Module ConsoleInvariants.
Import Console.

(** The text [update] writes: the data between single quotes. *)
Definition quoted (data : string) : string :=
  String.append "'" (String.append data "'").

(** Every later timer is due no sooner than an earlier one. *)
Fixpoint ascending (l : list nat) : Prop :=
  match l with
  | [] => True
  | x :: l' => Forall (le x) l' /\ ascending l'
  end.

(** No pending timer is due later than [delay] from now. *)
Definition timely (w : World) : Prop :=
  Forall (fun due => due <= clock w + delay) (timers w).

(** The element shows the last data written, or nothing was written yet. *)
Definition shows (el : DomElement) (w : World) : Prop :=
  (console w = new_Console el /\ timers w = []) \/
  textContent (element (console w)) = quoted (previousData (console w)).

Lemma ascending_snoc (l : list nat) (x : nat) :
  ascending l -> Forall (fun d => d <= x) l -> ascending (l ++ [x]).
Proof.
  induction l as [|y l IH]; cbn [ascending app]; intros Ha Hf.
  - split; [constructor|exact I].
  - destruct Ha as [Hy Ha]. apply Forall_cons in Hf as [Hyx Hf]. split.
    + apply Forall_app. split; [exact Hy|]. by constructor.
    + by apply IH.
Qed.

Lemma step_timely (e : Event) (w w' : World) :
  timely w /\ ascending (timers w) -> step e w = Some w' ->
  timely w' /\ ascending (timers w').
Proof.
  unfold timely. intros [Ht Ha] Hs. destruct e as [data|ms|]; cbn [step] in Hs.
  - injection Hs as <-. unfold update.
    destruct (String.eqb (previousData (console w)) data); [done|].
    cbn [timers clock]. split.
    + apply Forall_app. split; [exact Ht|]. by constructor.
    + by apply ascending_snoc.
  - injection Hs as <-. cbn [timers clock]. split; [|exact Ha].
    eapply Forall_impl; [exact Ht|]. cbn beta. intros due Hd. lia.
  - destruct (timers w) as [|due rest]; [discriminate|].
    destruct (Nat.leb due (clock w)); [|discriminate]. injection Hs as <-.
    cbn [timers clock]. apply Forall_cons in Ht as [_ Ht].
    destruct Ha as [_ Ha]. by split.
Qed.

Lemma step_shows (el : DomElement) (e : Event) (w w' : World) :
  shows el w -> step e w = Some w' -> shows el w'.
Proof.
  unfold shows. intros Hsh Hs. destruct e as [data|ms|]; cbn [step] in Hs.
  - injection Hs as <-. unfold update.
    destruct (String.eqb (previousData (console w)) data); [exact Hsh|].
    right. reflexivity.
  - injection Hs as <-. exact Hsh.
  - destruct (timers w) as [|due rest] eqn:Hw; [discriminate|].
    destruct (Nat.leb due (clock w)); [|discriminate]. injection Hs as <-.
    destruct Hsh as [[_ Hnil]|Hsh]; [discriminate|]. right.
    unfold onTimeout. cbn [console element previousData].
    by destruct (Z.eqb _ 0).
Qed.

Lemma run_invariant (P : World -> Prop) (evs : list Event) (w w' : World) :
  (forall e w1 w2, P w1 -> step e w1 = Some w2 -> P w2) ->
  P w -> run evs w = Some w' -> P w'.
Proof.
  intros Hstep. revert w. induction evs as [|e evs IH]; intros w Hw Hr; cbn [run] in Hr.
  - by injection Hr as <-.
  - destruct (step e w) as [w1|] eqn:Hs; [|discriminate]. eauto.
Qed.

(** Firing every pending timer, all of them due: the counter ends at zero and
    the flag is cleared if there was a timer. *)
Lemma drain (ts : list nat) (c : Console) (k : nat) :
  consistent (mkWorld c k ts) ->
  Forall (fun due => due <= k) ts ->
  exists c',
    run (repeat Expire (length ts)) (mkWorld c k ts) = Some (mkWorld c' k []) /\
    consoleUpdates c' = 0%Z /\
    previousData c' = previousData c /\
    textContent (element c') = textContent (element c) /\
    updated (element c') = match ts with [] => updated (element c) | _ => false end.
Proof.
  revert c. induction ts as [|due ts IH]; intros c Hc Hdue.
  - exists c. destruct Hc as [Hn _]. by repeat split.
  - apply Forall_cons in Hdue as [Hd Hdue].
    assert (Hs : step Expire (mkWorld c k (due :: ts))
                 = Some (mkWorld (onTimeout c) k ts)).
    { cbn [step timers clock console]. apply Nat.leb_le in Hd. by rewrite Hd. }
    pose proof (ConsoleFacts.step_consistent _ _ _ Hc Hs) as Hc1.
    destruct (IH (onTimeout c) Hc1 Hdue) as (c' & Hr & Hz & Hp & Ht & Hu).
    exists c'. cbn [length repeat run]. rewrite Hs.
    split; [exact Hr|]. split; [exact Hz|]. split; [exact Hp|].
    split; [by rewrite Ht; unfold onTimeout; cbn; destruct (Z.eqb _ 0)|].
    rewrite Hu. destruct ts as [|due' ts']; [|reflexivity].
    destruct Hc as [Hn _]. cbn [console timers length] in Hn.
    unfold onTimeout. cbn [element updated]. by rewrite Hn.
Qed.

End ConsoleInvariants.

(** X10: writing the same data twice in a row is writing it once: the second
    call adds nothing to the counter and sets no timer. After a call,
    [previousData] is the data given, whichever way the call went, and a call
    with the data of the call before changes nothing. *)
Theorem X10_update_idempotent (data : string) (w : Console.World) :
  Console.update data (Console.update data w) = Console.update data w /\
  Console.previousData (Console.console (Console.update data w)) = data /\
  (Console.previousData (Console.console w) = data -> Console.update data w = w).
Proof.
  unfold Console.update.
  destruct (String.eqb_spec (Console.previousData (Console.console w)) data)
    as [He|Hne].
  - apply String.eqb_eq in He as Hb. rewrite Hb. by repeat split.
  - cbn [Console.console Console.previousData]. rewrite String.eqb_refl.
    by repeat split.
Qed.

Lemma run_timely (el : Console.DomElement) (evs : list Console.Event)
    (w : Console.World) :
  Console.run evs (Console.new_World el) = Some w ->
  ConsoleInvariants.timely w /\ ConsoleInvariants.ascending (Console.timers w).
Proof.
  intros Hrun.
  apply (ConsoleInvariants.run_invariant
           (fun w => ConsoleInvariants.timely w /\
                     ConsoleInvariants.ascending (Console.timers w))
           evs (Console.new_World el) w).
  - intros e w1 w2 H1 H2. exact (ConsoleInvariants.step_timely e w1 w2 H1 H2).
  - split; [by apply Forall_nil|exact I].
  - exact Hrun.
Qed.

(** X11: in every state a new console can reach, the counter is the number of
    timers set and not fired yet (so it is never negative), the flag is set
    while there is such a timer, no pending timer is due later than 500 ms
    from now, and the timers are due in the order they were set. *)
Theorem X11_console_invariant (el : Console.DomElement)
    (evs : list Console.Event) (w : Console.World) :
  Console.run evs (Console.new_World el) = Some w ->
  let counter := Console.consoleUpdates (Console.console w) in
  counter = Z.of_nat (length (Console.timers w)) /\
  (0 <= counter)%Z /\
  (Console.timers w <> [] ->
   Console.updated (Console.element (Console.console w)) = true) /\
  Forall (fun due => due <= Console.clock w + 500) (Console.timers w) /\
  ConsoleInvariants.ascending (Console.timers w).
Proof.
  intros Hrun counter.
  assert (Hc : Console.consistent w).
  { eapply ConsoleFacts.run_consistent; [apply ConsoleFacts.new_World_consistent|].
    exact Hrun. }
  pose proof (run_timely el evs w Hrun) as Ht.
  destruct Hc as [Hn Hf]. destruct Ht as [Ht Ha]. subst counter.
  split; [exact Hn|]. split; [rewrite Hn; lia|]. split; [exact Hf|].
  split; [exact Ht|exact Ha].
Qed.

(** X11 on the sample run. *)
Lemma X11_witness :
  Console.consoleUpdates (Console.console sample_world)
  = Z.of_nat (length (Console.timers sample_world)).
Proof.
  exact (proj1 (X11_console_invariant (Console.mkDomElement false "")
                  [Console.Update "a"; Console.Wait 100] sample_world eq_refl)).
Defined.

(** X12: in every state a new console can reach, either nothing has been
    written yet (the console and its element are as constructed), or the text
    of the element is the last data written, between single quotes; a timer
    that fires never changes the text. *)
Theorem X12_console_shows_last_data (el : Console.DomElement)
    (evs : list Console.Event) (w : Console.World) :
  Console.run evs (Console.new_World el) = Some w ->
  (Console.console w = Console.new_Console el /\ Console.timers w = []) \/
  Console.textContent (Console.element (Console.console w))
  = String.append "'" (String.append (Console.previousData (Console.console w)) "'").
Proof.
  intros Hrun.
  apply (ConsoleInvariants.run_invariant (ConsoleInvariants.shows el) evs
           (Console.new_World el) w).
  - intros e w1 w2. apply ConsoleInvariants.step_shows.
  - by left.
  - exact Hrun.
Qed.

(** X12 on the sample run: the text is ['a']. *)
Lemma X12_witness :
  Console.textContent (Console.element (Console.console sample_world)) = "'a'".
Proof.
  destruct (X12_console_shows_last_data (Console.mkDomElement false "")
              [Console.Update "a"; Console.Wait 100] sample_world eq_refl)
    as [[H _]|H]; [discriminate H|exact H].
Defined.

(** X13: from every state a new console can reach, once 500 ms pass with no
    further call, every pending timer can fire, and when they all have, the
    counter is zero, no timer is left, the flag is cleared if a timer was
    pending, and the data and the text are what they were. *)
Theorem X13_console_settles (el : Console.DomElement)
    (evs : list Console.Event) (w : Console.World) :
  Console.run evs (Console.new_World el) = Some w ->
  exists w',
    Console.run
      (Console.Wait 500 :: repeat Console.Expire (length (Console.timers w))) w
    = Some w' /\
    Console.timers w' = [] /\
    Console.consoleUpdates (Console.console w') = 0%Z /\
    Console.clock w' = Console.clock w + 500 /\
    Console.previousData (Console.console w') = Console.previousData (Console.console w) /\
    Console.textContent (Console.element (Console.console w'))
    = Console.textContent (Console.element (Console.console w)) /\
    (Console.timers w <> [] ->
     Console.updated (Console.element (Console.console w')) = false).
Proof.
  intros Hrun.
  assert (Hc : Console.consistent w).
  { eapply ConsoleFacts.run_consistent; [apply ConsoleFacts.new_World_consistent|].
    exact Hrun. }
  pose proof (run_timely el evs w Hrun) as Ht.
  destruct Ht as [Ht _]. destruct w as [c k ts].
  unfold ConsoleInvariants.timely in Ht. cbn [Console.timers Console.clock] in *.
  destruct (ConsoleInvariants.drain ts c (k + 500)) as (c' & Hr & Hz & Hp & Htx & Hu).
  - exact Hc.
  - exact Ht.
  - exists (Console.mkWorld c' (k + 500) []).
    cbn [Console.run Console.step Console.console Console.clock Console.timers].
    split; [exact Hr|]. split; [reflexivity|]. split; [exact Hz|].
    split; [reflexivity|]. split; [exact Hp|]. split; [exact Htx|].
    intros Hne. rewrite Hu. by destruct ts.
Qed.

(** X13 on the sample run: the one pending timer fires at 600 ms. *)
Lemma X13_witness :
  exists w',
    Console.run [Console.Wait 500; Console.Expire] sample_world = Some w' /\
    Console.updated (Console.element (Console.console w')) = false.
Proof.
  destruct (X13_console_settles (Console.mkDomElement false "")
              [Console.Update "a"; Console.Wait 100] sample_world eq_refl)
    as (w' & Hr & _ & _ & _ & _ & _ & Hu).
  exists w'. split; [exact Hr|]. apply Hu. discriminate.
Defined.
